(** * Student roster manager: validation, search, persistence

    A shallow embedding of the TypeScript sources of the student dashboard
    (src/utils/api.ts, src/utils/storage.ts, src/hooks/useStudents.ts,
    src/hooks/useCourses.ts, src/components/StudentForm.tsx,
    src/components/StudentList.tsx, src/App.tsx) together with the
    properties of its data-synchronisation and validation core.

    Conventions.
    - A JavaScript string is the list of its UTF-16 code units; a code unit
      is a number of type [N].  [str "..."] turns an ASCII literal into such
      a list.
    - [String.prototype.toLowerCase] depends on the Unicode case tables of
      the host; it is a parameter of the development (a [Variable] of the
      sections below).  [toLowerCaseASCII] is the instance used on concrete
      ASCII inputs.
    - Host calls that can raise ([JSON.parse], [localStorage.setItem]) yield
      a [Completion]; [try_catch] is the [try { } catch { }] statement. *)

From Stdlib Require Import NArith String Ascii DecimalString Lia.
From stdpp Require Import base list gmap.

Open Scope N_scope.
Open Scope list_scope.

(** ** JavaScript strings *)

Definition jsstring := list N.

Definition str (s : string) : jsstring :=
  List.map N_of_ascii (list_ascii_of_string s).
Arguments str : simpl never.

(** WhiteSpace and LineTerminator code points of ECMAScript: the characters
    removed by [trim] and matched by the regular-expression class [\s]. *)
Definition is_whitespace (c : N) : bool :=
  (c =? 9) || (c =? 10) || (c =? 11) || (c =? 12) || (c =? 13) || (c =? 32)
  || (c =? 160) || (c =? 5760) || ((8192 <=? c) && (c <=? 8202))
  || (c =? 8232) || (c =? 8233) || (c =? 8239) || (c =? 8287)
  || (c =? 12288) || (c =? 65279).

Fixpoint trimStart (s : jsstring) : jsstring :=
  match s with
  | [] => []
  | c :: rest => if is_whitespace c then trimStart rest else s
  end.

Definition trimEnd (s : jsstring) : jsstring := rev (trimStart (rev s)).

Definition trim (s : jsstring) : jsstring := trimEnd (trimStart s).

(** Truthiness of a string: only the empty string is falsy. *)
Definition truthy (s : jsstring) : bool :=
  match s with [] => false | _ :: _ => true end.

Fixpoint startsWith (s sub : jsstring) {struct sub} : bool :=
  match sub, s with
  | [], _ => true
  | _ :: _, [] => false
  | d :: sub', c :: s' => (c =? d) && startsWith s' sub'
  end.

(** [s.includes(sub)] *)
Fixpoint includes (s sub : jsstring) : bool :=
  startsWith s sub ||
  match s with
  | [] => false
  | _ :: s' => includes s' sub
  end.

(** Simple case mapping of Basic Latin, for concrete inputs. *)
Definition toLowerCaseASCII (s : jsstring) : jsstring :=
  List.map (fun c => if (65 <=? c) && (c <=? 90) then c + 32 else c) s.

(** Decimal rendering of a number, as in a template literal. *)
Definition decimal (n : N) : jsstring :=
  str (NilEmpty.string_of_uint (N.to_uint n)).

(** ** Completions and host effects *)

(** The result of evaluating a statement: a value, or a raised exception. *)
Inductive Completion (A : Type) : Type :=
| Normal (a : A)
| Throw (exn : jsstring).
Arguments Normal {A} a.
Arguments Throw {A} exn.

(** The part of the browser the program talks to: the [localStorage] area
    with its capacity, and the console. *)
Record Host := mkHost {
  localStorage : gmap jsstring jsstring;
  quota : nat;
  console : list jsstring
}.

Definition Eff (A : Type) : Type := Host -> Completion A * Host.

Definition eff_ret {A} (a : A) : Eff A := fun h => (Normal a, h).

Definition eff_bind {A B} (m : Eff A) (k : A -> Eff B) : Eff B :=
  fun h =>
    match m h with
    | (Normal a, h') => k a h'
    | (Throw e, h') => (Throw e, h')
    end.

Definition lift {A} (c : Completion A) : Eff A := fun h => (c, h).

(** [try { body } catch (error) { handler }] *)
Definition try_catch {A} (body : Eff A) (handler : jsstring -> Eff A) : Eff A :=
  fun h =>
    match body h with
    | (Normal a, h') => (Normal a, h')
    | (Throw e, h') => handler e h'
    end.

Notation "'let!' x ':=' m 'in' k" := (eff_bind m (fun x => k))
  (at level 10, x name, m at level 100, k at level 200).
Notation "'seq!' m 'in' k" := (eff_bind m (fun _ => k))
  (at level 10, m at level 100, k at level 200).

(** [console.error(message, error)] *)
Definition console_error (message exn : jsstring) : Eff unit :=
  fun h =>
    (Normal tt,
     {| localStorage := localStorage h; quota := quota h;
        console := console h ++ [message ++ str " " ++ exn] |}).

(** Code units held by the storage area. *)
Definition storage_size (m : gmap jsstring jsstring) : nat :=
  map_fold (fun k v acc => (length k + length v + acc)%nat) 0%nat m.

Definition getItem (key : jsstring) : Eff (option jsstring) :=
  fun h => (Normal (localStorage h !! key), h).

(** [localStorage.setItem]: raises [QuotaExceededError] when the new
    content does not fit the capacity of the area. *)
Definition setItem (key value : jsstring) : Eff unit :=
  fun h =>
    let m' := <[key := value]> (localStorage h) in
    if decide (storage_size m' <= quota h)%nat
    then (Normal tt, {| localStorage := m'; quota := quota h; console := console h |})
    else (Throw (str "QuotaExceededError"), h).

(** ** Regular expressions *)

Module Regex.

Inductive regex : Type :=
| Void
| Eps
| Class (p : N -> bool)
| Seq (r1 r2 : regex)
| Alt (r1 r2 : regex)
| Star (r : regex).

(** [r+] *)
Definition Plus (r : regex) : regex := Seq r (Star r).

(** A literal character. *)
Definition Chr (c : N) : regex := Class (N.eqb c).

Fixpoint nullable (r : regex) : bool :=
  match r with
  | Void => false
  | Eps => true
  | Class _ => false
  | Seq r1 r2 => nullable r1 && nullable r2
  | Alt r1 r2 => nullable r1 || nullable r2
  | Star _ => true
  end.

(** Brzozowski derivative. *)
Fixpoint deriv (c : N) (r : regex) : regex :=
  match r with
  | Void => Void
  | Eps => Void
  | Class p => if p c then Eps else Void
  | Seq r1 r2 =>
      if nullable r1
      then Alt (Seq (deriv c r1) r2) (deriv c r2)
      else Seq (deriv c r1) r2
  | Alt r1 r2 => Alt (deriv c r1) (deriv c r2)
  | Star r1 => Seq (deriv c r1) (Star r1)
  end.

Fixpoint derivs (s : jsstring) (r : regex) : regex :=
  match s with
  | [] => r
  | c :: rest => derivs rest (deriv c r)
  end.

(** [/^r$/.test(s)]: the pattern between the anchors has to match the
    whole string. *)
Definition test (r : regex) (s : jsstring) : bool := nullable (derivs s r).

(** The language of a pattern. *)
Inductive Matches : regex -> jsstring -> Prop :=
| MEps : Matches Eps []
| MClass p c : p c = true -> Matches (Class p) [c]
| MSeq r1 r2 s1 s2 : Matches r1 s1 -> Matches r2 s2 -> Matches (Seq r1 r2) (s1 ++ s2)
| MAltL r1 r2 s : Matches r1 s -> Matches (Alt r1 r2) s
| MAltR r1 r2 s : Matches r2 s -> Matches (Alt r1 r2) s
| MStarNil r : Matches (Star r) []
| MStarApp r s1 s2 : Matches r s1 -> Matches (Star r) s2 -> Matches (Star r) (s1 ++ s2).

End Regex.

(** ** JSON: [JSON.stringify] and [JSON.parse] *)

Module Json.

(** JSON texts as trees.  A number keeps its literal; an object keeps its
    members in the order of the text. *)
Local Unset Elimination Schemes.
Inductive json : Type :=
| JNull
| JBool (b : bool)
| JNum (literal : jsstring)
| JStr (s : jsstring)
| JArr (items : list json)
| JObj (members : list (jsstring * json)).
Local Set Elimination Schemes.

Inductive token : Type :=
| TLBrace | TRBrace | TLBracket | TRBracket | TColon | TComma
| TString (s : jsstring)
| TNumber (literal : jsstring)
| TTrue | TFalse | TNull.

Definition is_number_token (t : token) : bool :=
  match t with TNumber _ => true | _ => false end.

(** *** Serialisation *)

Definition hex_digit (n : N) : N := if n <? 10 then 48 + n else 87 + n.

Definition hex4 (c : N) : jsstring :=
  [hex_digit (c / 4096 mod 16); hex_digit (c / 256 mod 16);
   hex_digit (c / 16 mod 16); hex_digit (c mod 16)].

(** [\uXXXX] *)
Definition unicode_escape (c : N) : jsstring := 92 :: 117 :: hex4 c.

Definition is_high_surrogate (c : N) : bool := (55296 <=? c) && (c <=? 56319).
Definition is_low_surrogate (c : N) : bool := (56320 <=? c) && (c <=? 57343).

(** QuoteJSONString on one code unit; [paired] tells whether the unit is
    half of a surrogate pair. *)
Definition quote_unit (paired : bool) (c : N) : jsstring :=
  if c =? 8 then [92; 98]
  else if c =? 9 then [92; 116]
  else if c =? 10 then [92; 110]
  else if c =? 12 then [92; 102]
  else if c =? 13 then [92; 114]
  else if c =? 34 then [92; 34]
  else if c =? 92 then [92; 92]
  else if (c <? 32) || ((is_high_surrogate c || is_low_surrogate c) && negb paired)
  then unicode_escape c
  else [c].

Fixpoint quote_units (prev_high : bool) (s : jsstring) : jsstring :=
  match s with
  | [] => []
  | c :: rest =>
      let next_low := match rest with d :: _ => is_low_surrogate d | [] => false end in
      let paired := (is_high_surrogate c && next_low) || (is_low_surrogate c && prev_high) in
      quote_unit paired c ++ quote_units (is_high_surrogate c) rest
  end.

Definition quote (s : jsstring) : jsstring := 34 :: quote_units false s ++ [34].

Definition print_token (t : token) : jsstring :=
  match t with
  | TLBrace => [123] | TRBrace => [125]
  | TLBracket => [91] | TRBracket => [93]
  | TColon => [58] | TComma => [44]
  | TString s => quote s
  | TNumber literal => literal
  | TTrue => str "true" | TFalse => str "false" | TNull => str "null"
  end.

Fixpoint comma_separated (parts : list (list token)) : list token :=
  match parts with
  | [] => []
  | [p] => p
  | p :: rest => p ++ TComma :: comma_separated rest
  end.

Fixpoint tokens_of (v : json) : list token :=
  match v with
  | JNull => [TNull]
  | JBool true => [TTrue]
  | JBool false => [TFalse]
  | JNum literal => [TNumber literal]
  | JStr s => [TString s]
  | JArr items => TLBracket :: comma_separated (List.map tokens_of items) ++ [TRBracket]
  | JObj members =>
      TLBrace ::
      comma_separated
        (List.map (fun kv => TString (fst kv) :: TColon :: tokens_of (snd kv)) members)
      ++ [TRBrace]
  end.

(** [JSON.stringify(v)], no indentation. *)
Definition stringify (v : json) : jsstring :=
  List.concat (List.map print_token (tokens_of v)).

(** *** Lexical analysis *)

Definition is_json_whitespace (c : N) : bool :=
  (c =? 9) || (c =? 10) || (c =? 13) || (c =? 32).

Definition is_digit (c : N) : bool := (48 <=? c) && (c <=? 57).
Definition is_digit19 (c : N) : bool := (49 <=? c) && (c <=? 57).
Definition is_exp (c : N) : bool := (c =? 101) || (c =? 69).

(** States of the number grammar: an optional minus sign; a zero, or a
    non-zero digit followed by digits; optionally a dot and digits;
    optionally an exponent letter, a sign and digits. *)
Inductive numstate : Type :=
| NMinus | NZero | NInt | NDot | NFrac | NE | NESign | NExp.

Definition num_start (c : N) : option numstate :=
  if c =? 45 then Some NMinus
  else if c =? 48 then Some NZero
  else if is_digit19 c then Some NInt
  else None.

Definition num_step (st : numstate) (c : N) : option numstate :=
  match st with
  | NMinus => if c =? 48 then Some NZero else if is_digit19 c then Some NInt else None
  | NZero => if c =? 46 then Some NDot else if is_exp c then Some NE else None
  | NInt =>
      if is_digit c then Some NInt
      else if c =? 46 then Some NDot
      else if is_exp c then Some NE else None
  | NDot => if is_digit c then Some NFrac else None
  | NFrac => if is_digit c then Some NFrac else if is_exp c then Some NE else None
  | NE =>
      if (c =? 43) || (c =? 45) then Some NESign
      else if is_digit c then Some NExp else None
  | NESign => if is_digit c then Some NExp else None
  | NExp => if is_digit c then Some NExp else None
  end.

Definition num_final (st : numstate) : bool :=
  match st with
  | NZero | NInt | NFrac | NExp => true
  | _ => false
  end.

(** The character after a backslash, for the one-letter escapes. *)
Definition escape_char (c : N) : option N :=
  if c =? 34 then Some 34
  else if c =? 92 then Some 92
  else if c =? 47 then Some 47
  else if c =? 98 then Some 8
  else if c =? 102 then Some 12
  else if c =? 110 then Some 10
  else if c =? 114 then Some 13
  else if c =? 116 then Some 9
  else None.

Definition hex_value (c : N) : option N :=
  if (48 <=? c) && (c <=? 57) then Some (c - 48)
  else if (97 <=? c) && (c <=? 102) then Some (c - 87)
  else if (65 <=? c) && (c <=? 70) then Some (c - 55)
  else None.

(** What the scanner is in the middle of.  Accumulators are reversed. *)
Inductive lexmode : Type :=
| LIdle
| LStr (acc : jsstring)
| LEsc (acc : jsstring)
| LHex (acc : jsstring) (remaining : nat) (v : N)
| LNum (st : numstate) (acc : jsstring)
| LKeyword (expect : jsstring) (t : token).

Definition lex_idle (c : N) : option (lexmode * list token) :=
  if is_json_whitespace c then Some (LIdle, [])
  else if c =? 123 then Some (LIdle, [TLBrace])
  else if c =? 125 then Some (LIdle, [TRBrace])
  else if c =? 91 then Some (LIdle, [TLBracket])
  else if c =? 93 then Some (LIdle, [TRBracket])
  else if c =? 58 then Some (LIdle, [TColon])
  else if c =? 44 then Some (LIdle, [TComma])
  else if c =? 34 then Some (LStr [], [])
  else if c =? 116 then Some (LKeyword (str "rue") TTrue, [])
  else if c =? 102 then Some (LKeyword (str "alse") TFalse, [])
  else if c =? 110 then Some (LKeyword (str "ull") TNull, [])
  else match num_start c with
       | Some st => Some (LNum st [c], [])
       | None => None
       end.

Definition lex_step (m : lexmode) (c : N) : option (lexmode * list token) :=
  match m with
  | LIdle => lex_idle c
  | LStr acc =>
      if c =? 34 then Some (LIdle, [TString (rev acc)])
      else if c =? 92 then Some (LEsc acc, [])
      else if c <? 32 then None
      else Some (LStr (c :: acc), [])
  | LEsc acc =>
      match escape_char c with
      | Some d => Some (LStr (d :: acc), [])
      | None => if c =? 117 then Some (LHex acc 4 0, []) else None
      end
  | LHex acc remaining v =>
      match hex_value c with
      | None => None
      | Some d =>
          match remaining with
          | O => None
          | S O => Some (LStr ((v * 16 + d) :: acc), [])
          | S n => Some (LHex acc n (v * 16 + d), [])
          end
      end
  | LNum st acc =>
      match num_step st c with
      | Some st' => Some (LNum st' (c :: acc), [])
      | None =>
          if num_final st
          then match lex_idle c with
               | Some (m', ts) => Some (m', TNumber (rev acc) :: ts)
               | None => None
               end
          else None
      end
  | LKeyword expect t =>
      match expect with
      | [] => None
      | e :: [] => if c =? e then Some (LIdle, [t]) else None
      | e :: more => if c =? e then Some (LKeyword more t, []) else None
      end
  end.

(** End of input. *)
Definition lex_end (m : lexmode) : option (list token) :=
  match m with
  | LIdle => Some []
  | LNum st acc => if num_final st then Some [TNumber (rev acc)] else None
  | _ => None
  end.

(** Prepending the tokens emitted so far to the result of the rest of the
    scan. *)
Definition emit (ts : list token) (r : option (list token)) : option (list token) :=
  match r with
  | None => None
  | Some more => Some (ts ++ more)
  end.

Fixpoint lex_from (m : lexmode) (s : jsstring) : option (list token) :=
  match s with
  | [] => lex_end m
  | c :: rest =>
      match lex_step m c with
      | None => None
      | Some (m', ts) => emit ts (lex_from m' rest)
      end
  end.

Definition lex (s : jsstring) : option (list token) := lex_from LIdle s.

(** *** Syntax analysis: a stack of containers under construction *)

Inductive frame : Type :=
| FArr (done : list json)
| FObj (done : list (jsstring * json)) (key : jsstring).

Inductive pmode : Type :=
| PValue
| PArrFirst
| PObjFirst
| PKey (done : list (jsstring * json))
| PColon (done : list (jsstring * json)) (key : jsstring)
| PDone (v : json).

Definition pstate : Type := pmode * list frame.

(** A token in a position where a value starts. *)
Definition start_value (t : token) (stack : list frame) : option pstate :=
  match t with
  | TString s => Some (PDone (JStr s), stack)
  | TNumber literal => Some (PDone (JNum literal), stack)
  | TTrue => Some (PDone (JBool true), stack)
  | TFalse => Some (PDone (JBool false), stack)
  | TNull => Some (PDone JNull, stack)
  | TLBracket => Some (PArrFirst, stack)
  | TLBrace => Some (PObjFirst, stack)
  | _ => None
  end.

Definition parse_step (st : pstate) (t : token) : option pstate :=
  let (mode, stack) := st in
  match mode with
  | PValue => start_value t stack
  | PArrFirst =>
      match t with
      | TRBracket => Some (PDone (JArr []), stack)
      | _ => start_value t (FArr [] :: stack)
      end
  | PObjFirst =>
      match t with
      | TRBrace => Some (PDone (JObj []), stack)
      | TString k => Some (PColon [] k, stack)
      | _ => None
      end
  | PKey done =>
      match t with
      | TString k => Some (PColon done k, stack)
      | _ => None
      end
  | PColon done k =>
      match t with
      | TColon => Some (PValue, FObj done k :: stack)
      | _ => None
      end
  | PDone v =>
      match t, stack with
      | TComma, FArr done :: stack' => Some (PValue, FArr (v :: done) :: stack')
      | TRBracket, FArr done :: stack' => Some (PDone (JArr (rev (v :: done))), stack')
      | TComma, FObj done k :: stack' => Some (PKey ((k, v) :: done), stack')
      | TRBrace, FObj done k :: stack' => Some (PDone (JObj (rev ((k, v) :: done))), stack')
      | _, _ => None
      end
  end.

Fixpoint parse_from (st : pstate) (ts : list token) : option json :=
  match ts with
  | [] => match st with (PDone v, []) => Some v | _ => None end
  | t :: rest =>
      match parse_step st t with
      | None => None
      | Some st' => parse_from st' rest
      end
  end.

(** [JSON.parse(text)]: raises [SyntaxError] on a text that is not JSON. *)
Definition parse (text : jsstring) : Completion json :=
  match lex text with
  | None => Throw (str "SyntaxError")
  | Some ts =>
      match parse_from (PValue, []) ts with
      | None => Throw (str "SyntaxError")
      | Some v => Normal v
      end
  end.

(** Property read [o[key]] on a parsed object: with duplicate names the
    last member wins. *)
Fixpoint get (members : list (jsstring * json)) (key : jsstring) : option json :=
  match members with
  | [] => None
  | (k, v) :: rest =>
      match get rest key with
      | Some w => Some w
      | None => if decide (k = key) then Some v else None
      end
  end.

End Json.

(** ** src/types: the data model *)

Record Student := mkStudent {
  id : jsstring;
  name : jsstring;
  email : jsstring;
  enrolledCourse : jsstring;
  profileImage : jsstring;
  dateEnrolled : jsstring
}.

Record Course := mkCourse {
  course_id : N;
  course_name : jsstring
}.

(** [FormErrors]: every key is optional. *)
Record FormErrors := mkFormErrors {
  err_name : option jsstring;
  err_email : option jsstring;
  err_enrolledCourse : option jsstring
}.

(** [ApiResponse<Course[]>] *)
Record ApiResponse := mkApiResponse {
  response_data : list Course;
  response_error : option jsstring
}.

Global Instance Student_eq_dec : EqDecision Student.
Proof. solve_decision. Defined.

(** ** src/utils/api.ts *)

Module api.

Definition mockCourses : list Course :=
  [ mkCourse 1 (str "HTML Basics");
    mkCourse 2 (str "CSS Mastery");
    mkCourse 3 (str "JavaScript Pro");
    mkCourse 4 (str "React In Depth");
    mkCourse 5 (str "Node.js Backend");
    mkCourse 6 (str "Python Fundamentals");
    mkCourse 7 (str "Database Design");
    mkCourse 8 (str "UI/UX Design") ].

(** [fetchCourses], after the simulated delay.  [random_below_tenth] is the
    outcome of the test [Math.random() < 0.1]. *)
Definition fetchCourses (random_below_tenth : bool) : ApiResponse :=
  if random_below_tenth
  then mkApiResponse [] (Some (str "Failed to fetch courses from server"))
  else mkApiResponse mockCourses None.

(** The class [[^\s@]]. *)
Definition not_space_at (c : N) : bool :=
  negb (is_whitespace c || (c =? 64)).

(** The pattern between the anchors of [/^[^\s@]+@[^\s@]+\.[^\s@]+$/]. *)
Definition emailRegex : Regex.regex :=
  Regex.Seq (Regex.Plus (Regex.Class not_space_at))
    (Regex.Seq (Regex.Chr 64)
      (Regex.Seq (Regex.Plus (Regex.Class not_space_at))
        (Regex.Seq (Regex.Chr 46)
          (Regex.Plus (Regex.Class not_space_at))))).

Definition validateEmail (email : jsstring) : bool :=
  Regex.test emailRegex email.

End api.

(** ** src/utils/storage.ts *)

Module storage.

Definition STORAGE_KEY : jsstring := str "students_data".

(** A student object as [JSON.stringify] sees it: own properties in the
    order of the object literal that creates it. *)
Definition student_to_json (s : Student) : Json.json :=
  Json.JObj
    [ (str "id", Json.JStr (id s));
      (str "name", Json.JStr (name s));
      (str "email", Json.JStr (email s));
      (str "enrolledCourse", Json.JStr (enrolledCourse s));
      (str "profileImage", Json.JStr (profileImage s));
      (str "dateEnrolled", Json.JStr (dateEnrolled s)) ].

Definition students_to_json (students : list Student) : Json.json :=
  Json.JArr (List.map student_to_json students).

(** The function is declared to return [Student[]]; what it returns is the
    value produced by [JSON.parse], unchecked. *)
Definition getStoredStudents : Eff Json.json :=
  try_catch
    (let! stored := getItem STORAGE_KEY in
     match stored with
     | Some text => if truthy text then lift (Json.parse text) else eff_ret (Json.JArr [])
     | None => eff_ret (Json.JArr [])
     end)
    (fun error =>
       seq! console_error (str "Error retrieving students from storage:") error in
       eff_ret (Json.JArr [])).

Definition saveStudents (students : list Student) : Eff unit :=
  try_catch
    (setItem STORAGE_KEY (Json.stringify (students_to_json students)))
    (fun error => console_error (str "Error saving students to storage:") error).

(** Reading a parsed value at the type [Student]: the six properties, each
    a string. *)
Definition string_field (members : list (jsstring * Json.json)) (key : jsstring)
  : option jsstring :=
  match Json.get members key with
  | Some (Json.JStr s) => Some s
  | _ => None
  end.

Definition student_of_json (v : Json.json) : option Student :=
  match v with
  | Json.JObj members =>
      match string_field members (str "id"), string_field members (str "name"),
            string_field members (str "email"),
            string_field members (str "enrolledCourse"),
            string_field members (str "profileImage"),
            string_field members (str "dateEnrolled") with
      | Some i, Some n, Some e, Some c, Some p, Some d => Some (mkStudent i n e c p d)
      | _, _, _, _, _, _ => None
      end
  | _ => None
  end.

Fixpoint students_of_items (items : list Json.json) : option (list Student) :=
  match items with
  | [] => Some []
  | v :: rest =>
      match student_of_json v, students_of_items rest with
      | Some s, Some l => Some (s :: l)
      | _, _ => None
      end
  end.

(** Reading a parsed value at the type [Student[]]. *)
Definition students_of_json (v : Json.json) : option (list Student) :=
  match v with
  | Json.JArr items => students_of_items items
  | _ => None
  end.

End storage.

(** ** src/hooks/useStudents.ts *)

Module useStudents.

Record State := mkState {
  students : list Student;
  isLoading : bool
}.

(** The effect that follows every change of [students] or [isLoading]. *)
Definition persist (st : State) : Eff unit :=
  if negb (isLoading st) && (0 <=? length (students st))%nat
  then storage.saveStudents (students st)
  else eff_ret tt.

(** [setStudents(updater)] and the effects of the render it causes. *)
Definition setStudents (updater : list Student -> list Student) (st : State)
  : Eff State :=
  let st' := mkState (updater (students st)) (isLoading st) in
  seq! persist st' in eff_ret st'.

Definition addStudent (student : Student) : State -> Eff State :=
  setStudents (fun prev => prev ++ [student]).

Definition updateStudent (updatedStudent : Student) : State -> Eff State :=
  setStudents (fun prev =>
    List.map (fun student =>
      if decide (id student = id updatedStudent) then updatedStudent else student)
      prev).

Definition removeStudent (studentId : jsstring) : State -> Eff State :=
  setStudents (fun prev =>
    List.filter (fun student => negb (bool_decide (id student = studentId))) prev).

End useStudents.

(** ** src/hooks/useCourses.ts *)

Module useCourses.

Record State := mkState {
  courses : list Course;
  isLoading : bool;
  error : option jsstring
}.

Definition initial : State := mkState [] true None.

(** [fetchCoursesData] up to its [await]. *)
Definition fetch_begin (st : State) : State :=
  mkState (courses st) true None.

(** [fetchCoursesData] from its [await] on, with the response received. *)
Definition fetch_resolve (response : ApiResponse) (st : State) : State :=
  match response_error response with
  | Some message =>
      if truthy message
      then mkState [] false (Some message)
      else mkState (response_data response) false (error st)
  | None => mkState (response_data response) false (error st)
  end.

Definition retry (st : State) : State := fetch_begin st.

End useCourses.

(** ** src/components/StudentForm.tsx *)

Module StudentForm.

Record FormData := mkFormData {
  form_name : jsstring;
  form_email : jsstring;
  form_enrolledCourse : jsstring;
  form_profileImage : jsstring
}.

Record State := mkState {
  formData : FormData;
  errors : FormErrors;
  isSubmitting : bool
}.

Inductive Field := FName | FEmail | FEnrolledCourse | FProfileImage.

Definition no_errors : FormErrors := mkFormErrors None None None.

(** The effect on [student]: runs when the form is mounted and whenever the
    [student] prop changes. *)
Definition student_effect (student : option Student) (st : State) : State :=
  mkState
    match student with
    | Some s => mkFormData (name s) (email s) (enrolledCourse s) (profileImage s)
    | None => mkFormData [] [] [] []
    end
    no_errors
    (isSubmitting st).

Definition mount (student : option Student) : State :=
  student_effect student (mkState (mkFormData [] [] [] []) no_errors false).

Definition name_error (fd : FormData) : option jsstring :=
  if negb (truthy (trim (form_name fd))) then Some (str "Name is required")
  else if (length (trim (form_name fd)) <? 2)%nat
       then Some (str "Name must be at least 2 characters")
       else None.

Definition email_error (fd : FormData) : option jsstring :=
  if negb (truthy (trim (form_email fd))) then Some (str "Email is required")
  else if negb (api.validateEmail (form_email fd))
       then Some (str "Please enter a valid email address")
       else None.

Definition course_error (fd : FormData) : option jsstring :=
  if negb (truthy (form_enrolledCourse fd)) then Some (str "Please select a course")
  else None.

Definition Object_keys (e : FormErrors) : list jsstring :=
  match err_name e with Some _ => [str "name"] | None => [] end ++
  match err_email e with Some _ => [str "email"] | None => [] end ++
  match err_enrolledCourse e with Some _ => [str "enrolledCourse"] | None => [] end.

(** [validateForm]: the errors it stores with [setErrors], and its result. *)
Definition validateForm (fd : FormData) : FormErrors * bool :=
  let newErrors := mkFormErrors (name_error fd) (email_error fd) (course_error fd) in
  (newErrors, (length (Object_keys newErrors) =? 0)%nat).

(** [if (errors[name]) setErrors({ ...prev, [name]: undefined })]: a message
    that is set (and truthy) is cleared. *)
Definition clear_error (message : option jsstring) : option jsstring :=
  match message with
  | Some m => if truthy m then None else Some m
  | None => None
  end.

Definition handleInputChange (field : Field) (value : jsstring) (st : State) : State :=
  let fd := formData st in
  let e := errors st in
  mkState
    match field with
    | FName => mkFormData value (form_email fd) (form_enrolledCourse fd) (form_profileImage fd)
    | FEmail => mkFormData (form_name fd) value (form_enrolledCourse fd) (form_profileImage fd)
    | FEnrolledCourse => mkFormData (form_name fd) (form_email fd) value (form_profileImage fd)
    | FProfileImage => mkFormData (form_name fd) (form_email fd) (form_enrolledCourse fd) value
    end
    match field with
    | FName => mkFormErrors (clear_error (err_name e)) (err_email e) (err_enrolledCourse e)
    | FEmail => mkFormErrors (err_name e) (clear_error (err_email e)) (err_enrolledCourse e)
    | FEnrolledCourse =>
        mkFormErrors (err_name e) (err_email e) (clear_error (err_enrolledCourse e))
    | FProfileImage => e
    end
    (isSubmitting st).

(** The values drawn from the host while a submission is processed. *)
Record Draws := mkDraws {
  generateId : jsstring;
  random_photo : N;
  random_file : N;
  now_toISOString : jsstring
}.

Definition placeholder (d : Draws) : jsstring :=
  str "https://images.pexels.com/photos/" ++ decimal (random_photo d + 1000) ++
  str "/pexels-photo-" ++ decimal (random_file d + 1000) ++
  str ".jpeg?auto=compress&cs=tinysrgb&w=400".

Section Submit.
Variable toLowerCase : jsstring -> jsstring.

(** The object literal [studentData] of [handleSubmit]. *)
Definition studentData (student : option Student) (fd : FormData) (d : Draws)
  : Student :=
  {| id := match student with
           | Some s => if truthy (id s) then id s else generateId d
           | None => generateId d
           end;
     name := trim (form_name fd);
     email := toLowerCase (trim (form_email fd));
     enrolledCourse := form_enrolledCourse fd;
     profileImage := if truthy (form_profileImage fd) then form_profileImage fd
                     else placeholder d;
     dateEnrolled := match student with
                     | Some s => if truthy (dateEnrolled s) then dateEnrolled s
                                 else now_toISOString d
                     | None => now_toISOString d
                     end |}.

(** [handleSubmit]: the state of the form afterwards, and the result of
    [onSubmit] when it was called and returned. *)
Definition handleSubmit {X : Type} (student : option Student)
    (onSubmit : Student -> Eff X) (d : Draws) (st : State)
  : Eff (State * option X) :=
  let (newErrors, valid) := validateForm (formData st) in
  if negb valid
  then eff_ret (mkState (formData st) newErrors (isSubmitting st), None)
  else
    let settled := mkState (formData st) newErrors false in
    try_catch
      (let! x := onSubmit (studentData student (formData st) d) in
       eff_ret (settled, Some x))
      (fun error =>
         seq! console_error (str "Error submitting form:") error in
         eff_ret (settled, None)).
End Submit.

End StudentForm.

(** ** src/components/StudentList.tsx *)

Module StudentList.
Section Search.
Variable toLowerCase : jsstring -> jsstring.

Definition filteredStudents (students : list Student) (searchTerm : jsstring)
  : list Student :=
  if negb (truthy (trim searchTerm)) then students
  else
    let searchLower := toLowerCase searchTerm in
    List.filter (fun student =>
      includes (toLowerCase (name student)) searchLower ||
      includes (toLowerCase (email student)) searchLower ||
      includes (toLowerCase (enrolledCourse student)) searchLower)
      students.
End Search.
End StudentList.

(** ** src/App.tsx *)

Module App.

Record State := mkState {
  studentsHook : useStudents.State;
  coursesHook : useCourses.State;
  showForm : bool;
  editingStudent : option Student;
  searchTerm : jsstring
}.

Definition handleAddStudent (st : State) : State :=
  mkState (studentsHook st) (coursesHook st) true None (searchTerm st).

Definition handleEditStudent (student : Student) (st : State) : State :=
  mkState (studentsHook st) (coursesHook st) true (Some student) (searchTerm st).

Definition handleFormSubmit (studentData : Student) (st : State) : Eff State :=
  let! hook :=
    match editingStudent st with
    | Some _ => useStudents.updateStudent studentData (studentsHook st)
    | None => useStudents.addStudent studentData (studentsHook st)
    end in
  eff_ret (mkState hook (coursesHook st) false None (searchTerm st)).

Definition handleFormCancel (st : State) : State :=
  mkState (studentsHook st) (coursesHook st) false None (searchTerm st).

(** The page on screen: the state of [App], and the state of the form while
    it is shown. *)
Record Page := mkPage {
  app : State;
  form : option StudentForm.State
}.

(** What a render does to the form: it exists while [showForm] holds, is
    mounted with the current [editingStudent], and runs its effect on
    [student] when that prop has changed (two records count as the same
    object when they are equal). *)
Definition render (before : option Student) (st : State)
    (f : option StudentForm.State) : option StudentForm.State :=
  if showForm st then
    match f with
    | None => Some (StudentForm.mount (editingStudent st))
    | Some fs =>
        if decide (before = editingStudent st) then Some fs
        else Some (StudentForm.student_effect (editingStudent st) fs)
    end
  else None.

(** The header button "Add Student" carries [disabled={coursesError !== null}];
    while [studentsLoading] holds the page shows the spinner only. *)
Definition add_button_enabled (st : State) : bool :=
  negb (useStudents.isLoading (studentsHook st)) &&
  match useCourses.error (coursesHook st) with
  | None => true
  | Some _ => false
  end.

Definition click_AddStudent (p : Page) : Page :=
  if add_button_enabled (app p)
  then
    let st' := handleAddStudent (app p) in
    mkPage st' (render (editingStudent (app p)) st' (form p))
  else p.

Definition click_EditStudent (student : Student) (p : Page) : Page :=
  if useStudents.isLoading (studentsHook (app p)) then p
  else
    let st' := handleEditStudent student (app p) in
    mkPage st' (render (editingStudent (app p)) st' (form p)).

(** What the controls of the form deliver to [handleInputChange].  The
    select offers the empty value and the names of [courses].  The text
    inputs deliver the text typed or pasted after the value sanitization of
    their type: newlines are removed, and for [type="email"] and
    [type="url"] leading and trailing ASCII whitespace as well. *)
Definition select_options (courses : list Course) : list jsstring :=
  [] :: List.map course_name courses.

Definition is_newline (c : N) : bool := (c =? 10) || (c =? 13).

Definition is_ascii_whitespace (c : N) : bool :=
  (c =? 9) || (c =? 10) || (c =? 12) || (c =? 13) || (c =? 32).

Definition strip_newlines (text : jsstring) : jsstring :=
  List.filter (fun c => negb (is_newline c)) text.

Fixpoint strip_leading (text : jsstring) : jsstring :=
  match text with
  | [] => []
  | c :: rest => if is_ascii_whitespace c then strip_leading rest else text
  end.

Definition strip_ascii_whitespace (text : jsstring) : jsstring :=
  rev (strip_leading (rev (strip_leading text))).

Definition sanitize (field : StudentForm.Field) (text : jsstring) : jsstring :=
  match field with
  | StudentForm.FName => strip_newlines text
  | StudentForm.FEmail | StudentForm.FProfileImage =>
      strip_ascii_whitespace (strip_newlines text)
  | StudentForm.FEnrolledCourse => text
  end.

(** [disabled={isSubmitting}] on the inputs, and
    [disabled={isSubmitting || isLoading}] on the select, where [isLoading]
    is [coursesLoading]. *)
Definition control_enabled (field : StudentForm.Field) (st : State)
    (fs : StudentForm.State) : bool :=
  negb (StudentForm.isSubmitting fs) &&
  match field with
  | StudentForm.FEnrolledCourse => negb (useCourses.isLoading (coursesHook st))
  | _ => true
  end.

(** A change event of a control of the form.  A disabled control fires no
    event, and the select fires none for a value that it does not offer: the
    page stays as it is. *)
Definition change_input (field : StudentForm.Field) (text : jsstring) (p : Page) : Page :=
  match form p with
  | Some fs =>
      if control_enabled field (app p) fs then
        match field with
        | StudentForm.FEnrolledCourse =>
            if bool_decide (text ∈ select_options (useCourses.courses (coursesHook (app p))))
            then mkPage (app p) (Some (StudentForm.handleInputChange field text fs))
            else p
        | _ =>
            mkPage (app p)
              (Some (StudentForm.handleInputChange field (sanitize field text) fs))
        end
      else p
  | None => p
  end.

(** The search box of the list, a text input: [onSearchChange={setSearchTerm}].
    While [studentsLoading] holds the page shows the spinner only. *)
Definition change_search (text : jsstring) (p : Page) : Page :=
  if useStudents.isLoading (studentsHook (app p)) then p
  else
    mkPage
      (mkState (studentsHook (app p)) (coursesHook (app p)) (showForm (app p))
         (editingStudent (app p)) (strip_newlines text))
      (form p).

Definition click_Cancel (p : Page) : Page :=
  match form p with
  | Some fs =>
      if StudentForm.isSubmitting fs then p
      else
        let st' := handleFormCancel (app p) in
        mkPage st' (render (editingStudent (app p)) st' (form p))
  | None => p
  end.

Section Submit.
Variable toLowerCase : jsstring -> jsstring.

(** The form is submitted: [handleSubmit] with [onSubmit={handleFormSubmit}]
    and [student={editingStudent}]. *)
Definition submit_form (d : StudentForm.Draws) (p : Page) : Eff Page :=
  match form p with
  | None => eff_ret p
  | Some fs =>
      if StudentForm.isSubmitting fs then eff_ret p
      else
        let! r := StudentForm.handleSubmit toLowerCase (editingStudent (app p))
                    (fun studentData => handleFormSubmit studentData (app p)) d fs in
        match r with
        | (fs', Some st') =>
            eff_ret (mkPage st' (render (editingStudent (app p)) st' (Some fs')))
        | (fs', None) => eff_ret (mkPage (app p) (Some fs'))
        end
  end.
End Submit.

End App.

(** ** Vocabulary of the specification *)

(** [sub] occurs in [s] as a contiguous block. *)
Definition Substring (sub s : jsstring) : Prop :=
  exists pre post, s = pre ++ sub ++ post.

(** The search criterion in the words of the specification: the lower-cased
    term is a substring of the lower-cased name, email or course. *)
Definition term_matches (toLowerCase : jsstring -> jsstring) (term : jsstring)
    (s : Student) : Prop :=
  Substring (toLowerCase term) (toLowerCase (name s)) \/
  Substring (toLowerCase term) (toLowerCase (email s)) \/
  Substring (toLowerCase term) (toLowerCase (enrolledCourse s)).

(** [Selects P l l']: [l'] keeps exactly the elements of [l] that satisfy
    [P], each as often as it occurs and in the order of [l]. *)
Inductive Selects {A : Type} (P : A -> Prop) : list A -> list A -> Prop :=
| Selects_nil : Selects P [] []
| Selects_keep x l l' : P x -> Selects P l l' -> Selects P (x :: l) (x :: l')
| Selects_drop x l l' : ~ P x -> Selects P l l' -> Selects P (x :: l) l'.

(** A string made of whitespace only (possibly empty). *)
Definition Blank (s : jsstring) : Prop :=
  Forall (fun c => is_whitespace c = true) s.

(** The states of the Course Directory. *)
Inductive DirectoryState : Type :=
| Loading
| Ready (courses : list Course)
| Failed (message : jsstring).

Definition directory (st : useCourses.State) : DirectoryState :=
  if useCourses.isLoading st then Loading
  else match useCourses.error st with
       | Some message => Failed message
       | None => Ready (useCourses.courses st)
       end.

(** A segment of an address in the words of the specification: non-empty,
    without whitespace. *)
Definition worded_segment (s : jsstring) : Prop :=
  s <> [] /\ Forall (fun c => is_whitespace c = false) s.

(** A segment of an address as the pattern has it: non-empty, without
    whitespace and without [@]. *)
Definition segment (s : jsstring) : Prop :=
  s <> [] /\ Forall (fun c => is_whitespace c = false /\ c <> 64) s.

(** local [@] domain [.] tld *)
Definition address_shape (seg : jsstring -> Prop) (e : jsstring) : Prop :=
  exists l d t, e = l ++ [64] ++ d ++ [46] ++ t /\ seg l /\ seg d /\ seg t.

(** [e] has a dot somewhere after an [@]. *)
Definition has_domain_dot (e : jsstring) : Prop :=
  exists l r, e = l ++ [64] ++ r /\ In 46 r.

Definition msg_name_required : jsstring := str "Name is required".
Definition msg_name_short : jsstring := str "Name must be at least 2 characters".
Definition msg_email_required : jsstring := str "Email is required".
Definition msg_email_invalid : jsstring := str "Please enter a valid email address".
Definition msg_course_required : jsstring := str "Please select a course".

(** Concrete data for the examples. *)
Definition host0 : Host := mkHost ∅ 5000 [].
Definition full_host : Host := mkHost ∅ 0 [].

Definition ann : Student :=
  mkStudent (str "s1") (str "Ann") (str "ann@site.org") (str "CSS Mastery")
    [] (str "2024-01-05T10:00:00.000Z").

Definition bob : Student :=
  mkStudent (str "s2") (str "Rob") (str "x@bob.com") (str "HTML Basics")
    (str "p.png") (str "2024-02-01T08:30:00.000Z").

Definition draws0 : StudentForm.Draws :=
  StudentForm.mkDraws (str "lq1x2y3z") 7 42 (str "2025-03-04T05:06:07.008Z").

(** The replacement done by [updateStudent]: every record with the id of
    [updatedStudent] becomes [updatedStudent], at its position. *)
Definition replace_by_id (updatedStudent : Student) (prev : list Student) : list Student :=
  List.map (fun student =>
    if decide (id student = id updatedStudent) then updatedStudent else student) prev.

Definition failed_directory : useCourses.State :=
  useCourses.fetch_resolve (api.fetchCourses true) useCourses.initial.

Definition valid_draft : StudentForm.FormData :=
  StudentForm.mkFormData (str " Cy Doe ") (str "Cy@Doe.io") (str "HTML Basics") [].

Definition invalid_draft : StudentForm.FormData :=
  StudentForm.mkFormData (str "C") (str "cy.doe.io") [] [].

Definition padded_draft : StudentForm.FormData :=
  StudentForm.mkFormData (str "Cy Doe") (str " a@b.com") (str "HTML Basics") [].

Definition open_form (fd : StudentForm.FormData) : StudentForm.State :=
  StudentForm.mkState fd StudentForm.no_errors false.

(** The add form is open on a page whose directory has failed. *)
Definition page_add_failed : App.Page :=
  App.mkPage
    (App.mkState (useStudents.mkState [ann] false) failed_directory true None [])
    (Some (open_form valid_draft)).

(** The add form is open with a draft that does not validate. *)
Definition page_add_invalid : App.Page :=
  App.mkPage
    (App.mkState (useStudents.mkState [ann] false)
       (useCourses.fetch_resolve (api.fetchCourses false) useCourses.initial)
       true None [])
    (Some (open_form invalid_draft)).

(** The edit form is open for [bob], second of two records. *)
Definition page_edit_bob : App.Page :=
  App.mkPage
    (App.mkState (useStudents.mkState [ann; bob] false)
       (useCourses.fetch_resolve (api.fetchCourses false) useCourses.initial)
       true (Some bob) [])
    (Some (open_form valid_draft)).

(** A record without enrollment date, as a stored blob can hold one. *)
Definition undated : Student :=
  mkStudent (str "s3") (str "Dee") (str "dee@site.org") (str "CSS Mastery")
    (str "d.png") [].

Definition page_edit_undated : App.Page :=
  App.mkPage
    (App.mkState (useStudents.mkState [ann; undated] false)
       (useCourses.fetch_resolve (api.fetchCourses false) useCourses.initial)
       true (Some undated) [])
    (Some (open_form valid_draft)).

(** ** Further parts of the sources *)

(** *** src/utils/api.ts: [generateId] *)

(** A digit of [Number.prototype.toString(36)]. *)
Definition digit36 (d : N) : N := if d <? 10 then 48 + d else 87 + d.

Fixpoint digits36 (fuel : nat) (n : N) (acc : jsstring) : jsstring :=
  match fuel with
  | O => acc
  | S fuel' =>
      if n =? 0 then acc
      else digits36 fuel' (n / 36) (digit36 (n mod 36) :: acc)
  end.

(** [n.toString(36)] for a non-negative integer [n]. *)
Definition toString36 (n : N) : jsstring :=
  if n =? 0 then [48] else digits36 (N.to_nat (N.size n)) n [].

(** [Date.now().toString(36) + Math.random().toString(36).substr(2)]:
    [now] is the clock in milliseconds, [random_digits] the digits that the
    host prints for the random fraction, without the leading [0.]. *)
Definition generateId (now : N) (random_digits : jsstring) : jsstring :=
  toString36 now ++ random_digits.

Definition value36 (c : N) : N :=
  if (48 <=? c) && (c <=? 57) then c - 48 else c - 87.

(** The number that a base 36 numeral stands for. *)
Definition parse36 (s : jsstring) : N :=
  fold_left (fun v c => v * 36 + value36 c) s 0.

Definition is_digit36 (c : N) : bool :=
  ((48 <=? c) && (c <=? 57)) || ((97 <=? c) && (c <=? 122)).

(** *** src/hooks/useStudents.ts: the load on mount *)

(** [loadStudents], from its [await] on, and the effects of the render that
    follows.  The stored value is read at the type [Student[]]; the result is
    [None] when the value is not of that type. *)
Definition loadStudents (st : useStudents.State) : Eff (option useStudents.State) :=
  let! loaded :=
    try_catch
      (let! storedStudents := storage.getStoredStudents in
       eff_ret (Some storedStudents))
      (fun error =>
         seq! console_error (str "Error loading students:") error in
         eff_ret None) in
  match loaded with
  | Some storedStudents =>
      match storage.students_of_json storedStudents with
      | Some students =>
          let st' := useStudents.mkState students false in
          seq! useStudents.persist st' in eff_ret (Some st')
      | None => eff_ret None
      end
  | None =>
      let st' := useStudents.mkState (useStudents.students st) false in
      seq! useStudents.persist st' in eff_ret (Some st')
  end.

(** The calls that the hook offers to change the collection. *)
Inductive Mutation : Type :=
| Add (student : Student)
| Update (updatedStudent : Student)
| Remove (studentId : jsstring).

Definition mutate (m : Mutation) : useStudents.State -> Eff useStudents.State :=
  match m with
  | Add student => useStudents.addStudent student
  | Update updatedStudent => useStudents.updateStudent updatedStudent
  | Remove studentId => useStudents.removeStudent studentId
  end.

(** The records left by [removeStudent]. *)
Definition remove_by_id (studentId : jsstring) (prev : list Student) : list Student :=
  List.filter (fun student => negb (bool_decide (id student = studentId))) prev.

(** The collection that a mutation asks for. *)
Definition mutated (m : Mutation) (prev : list Student) : list Student :=
  match m with
  | Add student => prev ++ [student]
  | Update updatedStudent => replace_by_id updatedStudent prev
  | Remove studentId => remove_by_id studentId prev
  end.

(** The storage area has room for the serialisation of [students]. *)
Definition accepts (h : Host) (students : list Student) : Prop :=
  (storage_size (<[storage.STORAGE_KEY :=
      Json.stringify (storage.students_to_json students)]> (localStorage h))
   <= quota h)%nat.

(** The ids of a collection, in order. *)
Definition ids (students : list Student) : list jsstring := List.map id students.

(** *** src/hooks/useCourses.ts under src/App.tsx: the life of the directory *)

Module Directory.

(** The hook, and the number of requests that have not resolved yet. *)
Record State := mkState {
  hook : useCourses.State;
  pending : nat
}.

Inductive Event : Type :=
| Retry
| Resolved (random_below_tenth : bool).

(** After the first render: the effect on mount has called
    [fetchCoursesData]. *)
Definition mounted : State :=
  mkState (useCourses.fetch_begin useCourses.initial) 1.

(** [{coursesError && <ErrorMessage ... onRetry={retry} />}] *)
Definition retry_shown (st : State) : bool :=
  match useCourses.error (hook st) with
  | Some message => truthy message
  | None => false
  end.

Definition step (e : Event) (st : State) : option State :=
  match e with
  | Retry =>
      if retry_shown st
      then Some (mkState (useCourses.retry (hook st)) (S (pending st)))
      else None
  | Resolved random_below_tenth =>
      match pending st with
      | O => None
      | S n =>
          Some (mkState
                  (useCourses.fetch_resolve (api.fetchCourses random_below_tenth) (hook st))
                  n)
      end
  end.

Fixpoint run (es : list Event) (st : State) : option State :=
  match es with
  | [] => Some st
  | e :: rest =>
      match step e st with
      | Some st' => run rest st'
      | None => None
      end
  end.

End Directory.

(** A record that a submission leaves as it is: trimmed name, trimmed and
    lower-cased email, and an id, an image and a date that are not empty. *)
Definition normalised (toLowerCase : jsstring -> jsstring) (s : Student) : Prop :=
  trim (name s) = name s /\
  toLowerCase (trim (email s)) = email s /\
  id s <> [] /\ profileImage s <> [] /\ dateEnrolled s <> [].

(** A page with the form closed, two records, courses loaded. *)
Definition page_list : App.Page :=
  App.mkPage
    (App.mkState (useStudents.mkState [ann; bob] false)
       (useCourses.fetch_resolve (api.fetchCourses false) useCourses.initial)
       false None [])
    None.

(** A host whose storage holds the two records. *)
Definition host_saved : Host :=
  snd (storage.saveStudents [ann; bob] host0).

(** The shapes of the directory: loading with one request out and nothing
    to show; ready with the courses of the service; failed with no course
    and the message of the service. *)
Definition directory_settled (st : Directory.State) : Prop :=
  match directory (Directory.hook st) with
  | Loading =>
      Directory.pending st = 1%nat /\
      useCourses.error (Directory.hook st) = None /\
      useCourses.courses (Directory.hook st) = []
  | Ready courses =>
      Directory.pending st = 0%nat /\ courses = api.mockCourses
  | Failed message =>
      Directory.pending st = 0%nat /\
      useCourses.courses (Directory.hook st) = [] /\
      message = str "Failed to fetch courses from server"
  end.

(** *** src/components/StudentList.tsx: what the list shows *)

Inductive ListBody : Type :=
| Grid (cards : list Student)
| EmptyState (title message : jsstring).

Section ListView.
Variable toLowerCase : jsstring -> jsstring.

(** The text under the heading: the number of records shown, of how many. *)
Definition list_counter (students : list Student) (searchTerm : jsstring) : jsstring :=
  decimal (N.of_nat (length (StudentList.filteredStudents toLowerCase students searchTerm)))
  ++ str " of " ++ decimal (N.of_nat (length students)) ++ str " students".

(** The grid of cards, or the empty state with its two texts. *)
Definition list_body (students : list Student) (searchTerm : jsstring) : ListBody :=
  let shown := StudentList.filteredStudents toLowerCase students searchTerm in
  if (0 <? length shown)%nat then Grid shown
  else
    EmptyState
      (if truthy searchTerm then str "No students found" else str "No students yet")
      (if truthy searchTerm
       then str "No students match " ++ [34] ++ searchTerm ++ [34] ++
            str ". Try adjusting your search."
       else str "Add your first student to get started!").
End ListView.

(** *** src/App.tsx: a session of the page *)

Module Session.

(** The page, the number of course requests that have not resolved yet, and
    the host. *)
Record State := mkState {
  page : App.Page;
  pending : nat;
  host : Host
}.

(** What can happen to the page: the two asynchronous tasks started on mount
    come back, and the user acts on a control that is on screen. *)
Inductive Event : Type :=
| StudentsLoaded
| CoursesResolved (random_below_tenth : bool)
| ClickRetry
| ClickAddStudent
| ClickEditStudent (student : Student)
| ChangeInput (field : StudentForm.Field) (text : jsstring)
| ChangeSearch (text : jsstring)
| ClickCancel
| Submit (d : StudentForm.Draws).

(** After the first render: both hooks have run their effect on mount. *)
Definition mounted (h : Host) : State :=
  mkState
    (App.mkPage
       (App.mkState (useStudents.mkState [] true) (Directory.hook Directory.mounted)
          false None [])
       None)
    (Directory.pending Directory.mounted) h.

Definition with_studentsHook (hook : useStudents.State) (p : App.Page) : App.Page :=
  App.mkPage
    (App.mkState hook (App.coursesHook (App.app p)) (App.showForm (App.app p))
       (App.editingStudent (App.app p)) (App.searchTerm (App.app p)))
    (App.form p).

Definition with_directory (d : Directory.State) (s : State) : State :=
  mkState
    (App.mkPage
       (App.mkState (App.studentsHook (App.app (page s))) (Directory.hook d)
          (App.showForm (App.app (page s))) (App.editingStudent (App.app (page s)))
          (App.searchTerm (App.app (page s))))
       (App.form (page s)))
    (Directory.pending d) (host s).

Definition directory_of (s : State) : Directory.State :=
  Directory.mkState (App.coursesHook (App.app (page s))) (pending s).

Section Run.
Variable toLowerCase : jsstring -> jsstring.

(** One event; [None] when it cannot happen on this page: no request is
    out, the retry button or the card is not on screen, the load has
    finished already, or the stored value is not a list of records. *)
Definition step (e : Event) (s : State) : option State :=
  let p := page s in
  match e with
  | StudentsLoaded =>
      if useStudents.isLoading (App.studentsHook (App.app p)) then
        match loadStudents (App.studentsHook (App.app p)) (host s) with
        | (Normal (Some hook), h') => Some (mkState (with_studentsHook hook p) (pending s) h')
        | _ => None
        end
      else None
  | CoursesResolved random_below_tenth =>
      match Directory.step (Directory.Resolved random_below_tenth) (directory_of s) with
      | Some d => Some (with_directory d s)
      | None => None
      end
  | ClickRetry =>
      if useStudents.isLoading (App.studentsHook (App.app p)) then None
      else
        match Directory.step Directory.Retry (directory_of s) with
        | Some d => Some (with_directory d s)
        | None => None
        end
  | ClickAddStudent => Some (mkState (App.click_AddStudent p) (pending s) (host s))
  | ClickEditStudent student =>
      if bool_decide
           (student ∈ StudentList.filteredStudents toLowerCase
                        (useStudents.students (App.studentsHook (App.app p)))
                        (App.searchTerm (App.app p)))
      then Some (mkState (App.click_EditStudent student p) (pending s) (host s))
      else None
  | ChangeInput field text =>
      Some (mkState (App.change_input field text p) (pending s) (host s))
  | ChangeSearch text => Some (mkState (App.change_search text p) (pending s) (host s))
  | ClickCancel => Some (mkState (App.click_Cancel p) (pending s) (host s))
  | Submit d =>
      match App.submit_form toLowerCase d p (host s) with
      | (Normal p', h') => Some (mkState p' (pending s) h')
      | (Throw _, _) => None
      end
  end.

Fixpoint run (es : list Event) (s : State) : option State :=
  match es with
  | [] => Some s
  | e :: rest =>
      match step e s with
      | Some s' => run rest s'
      | None => None
      end
  end.
End Run.

End Session.

(** What every session keeps: the directory is in one of its three shapes,
    and the course of an add form is a value that the select offers. *)
Definition session_settled (s : Session.State) : Prop :=
  directory_settled (Session.directory_of s) /\
  forall fs,
    App.form (Session.page s) = Some fs ->
    App.editingStudent (App.app (Session.page s)) = None ->
    StudentForm.form_enrolledCourse (StudentForm.formData fs) ∈
      App.select_options (useCourses.courses (App.coursesHook (App.app (Session.page s)))).

(** A session in which the add form is opened and filled in while the
    courses are loading, and the request for the courses then fails. *)
Definition session_add_failed : list Session.Event :=
  [Session.StudentsLoaded;
   Session.ClickAddStudent;
   Session.ChangeInput StudentForm.FName (str " Cy Doe ");
   Session.ChangeInput StudentForm.FEmail (str "Cy@Doe.io");
   Session.ChangeInput StudentForm.FEnrolledCourse (str "HTML Basics");
   Session.CoursesResolved true].

(** * Properties *)

(** ** Strings *)

Lemma startsWith_spec s sub :
  startsWith s sub = true <-> exists post, s = sub ++ post.
Proof.
  revert s. induction sub as [|d sub IH]; intros s; simpl.
  - split; [intros _; by exists s | done].
  - destruct s as [|c s]; simpl.
    + split; [done | intros [post H]; discriminate].
    + rewrite andb_true_iff, N.eqb_eq, IH. split.
      * intros [-> [post ->]]. by exists post.
      * intros [post H]. injection H as -> ->. split; [done | by exists post].
Qed.

Lemma includes_spec s sub : includes s sub = true <-> Substring sub s.
Proof.
  unfold Substring. induction s as [|c s IH]; simpl.
  - rewrite orb_false_r, startsWith_spec. split.
    + intros [post H]. by exists [], post.
    + intros [pre [post H]]. destruct pre; simpl in H.
      * by exists post.
      * discriminate.
  - rewrite orb_true_iff, startsWith_spec, IH. split.
    + intros [[post H] | [pre [post H]]].
      * by exists [], post.
      * exists (c :: pre), post. simpl. by rewrite H.
    + intros [pre [post H]]. destruct pre as [|c' pre]; simpl in H.
      * left. by exists post.
      * right. injection H as -> ->. by exists pre, post.
Qed.

Lemma truthy_false s : truthy s = false <-> s = [].
Proof. destruct s; simpl; split; congruence. Qed.

Lemma truthy_true s : truthy s = true <-> s <> [].
Proof. destruct s; simpl; split; congruence. Qed.

Lemma trimStart_blank s : Blank s -> trimStart s = [].
Proof.
  induction 1 as [|c s Hc _ IH]; simpl; [done|]. by rewrite Hc.
Qed.

Lemma trimStart_nil_blank s : trimStart s = [] -> Blank s.
Proof.
  induction s as [|c s IH]; simpl; [constructor|].
  destruct (is_whitespace c) eqn:E; [|done].
  intros H. constructor; [done | by apply IH].
Qed.

Lemma trimStart_app_blank pre s : Blank pre -> trimStart (pre ++ s) = trimStart s.
Proof.
  induction 1 as [|c pre Hc _ IH]; simpl; [done|]. by rewrite Hc.
Qed.

Lemma trimStart_head c s : is_whitespace c = false -> trimStart (c :: s) = c :: s.
Proof. intros H. simpl. by rewrite H. Qed.

Lemma Blank_rev s : Blank s -> Blank (rev s).
Proof. unfold Blank. intros H. by apply Forall_rev. Qed.

Lemma trim_blank s : trim s = [] <-> Blank s.
Proof.
  unfold trim, trimEnd. split.
  - intros H.
    assert (Hr : trimStart (rev (trimStart s)) = []).
    { apply (f_equal (@rev N)) in H. by rewrite rev_involutive in H. }
    apply trimStart_nil_blank, Blank_rev in Hr. rewrite rev_involutive in Hr.
    clear H. induction s as [|c s IH]; [constructor|].
    simpl in Hr. destruct (is_whitespace c) eqn:E.
    + constructor; [done | by apply IH].
    + inversion Hr; congruence.
  - intros H. by rewrite (trimStart_blank s H).
Qed.

Lemma trimStart_no_space s :
  Forall (fun c => is_whitespace c = false) s -> trimStart s = s.
Proof. destruct 1 as [|c s Hc _]; simpl; [done|]. by rewrite Hc. Qed.

Lemma trimStart_app_no_space s post :
  s <> [] -> Forall (fun c => is_whitespace c = false) s ->
  trimStart (s ++ post) = s ++ post.
Proof. intros Hne H. destruct H as [|c s Hc _]; simpl; [done|]. by rewrite Hc. Qed.

(** Trimming removes a blank prefix and a blank suffix around a non-empty
    string without whitespace. *)
Lemma trim_surrounded pre core post :
  Blank pre -> Blank post ->
  core <> [] -> Forall (fun c => is_whitespace c = false) core ->
  trim (pre ++ core ++ post) = core.
Proof.
  intros Hpre Hpost Hne Hcore. unfold trim, trimEnd.
  rewrite (trimStart_app_blank pre _ Hpre).
  rewrite (trimStart_app_no_space core post Hne Hcore).
  rewrite rev_app_distr.
  rewrite (trimStart_app_blank (rev post) _ (Blank_rev _ Hpost)).
  rewrite trimStart_no_space by (by apply Forall_rev).
  apply rev_involutive.
Qed.

Example trim_examples :
  trim (str "  a b  ") = str "a b" /\ trim (str "   ") = [] /\ trim [] = [] /\
  trim ([160; 9] ++ str "x" ++ [8232; 65279]) = str "x".
Proof. repeat split. Qed.

Example includes_examples :
  includes (str "x@bob.com") (str "bob") = true /\
  includes (str "ann") (str "bob") = false /\
  includes (str "ann") [] = true.
Proof. repeat split. Qed.

(** ** Regular expressions: the matcher decides the language *)

Lemma Matches_Seq_inv r1 r2 s :
  Regex.Matches (Regex.Seq r1 r2) s <->
  exists s1 s2, s = s1 ++ s2 /\ Regex.Matches r1 s1 /\ Regex.Matches r2 s2.
Proof.
  split.
  - inversion 1; subst. eauto.
  - intros (s1 & s2 & -> & H1 & H2). by constructor.
Qed.

Lemma Matches_Alt_inv r1 r2 s :
  Regex.Matches (Regex.Alt r1 r2) s <-> Regex.Matches r1 s \/ Regex.Matches r2 s.
Proof.
  split.
  - inversion 1; subst; auto.
  - intros [H | H]; [by apply Regex.MAltL | by apply Regex.MAltR].
Qed.

Lemma Matches_Class_inv p s :
  Regex.Matches (Regex.Class p) s <-> exists c, s = [c] /\ p c = true.
Proof.
  split.
  - inversion 1; subst. eauto.
  - intros (c & -> & H). by constructor.
Qed.

Lemma Matches_Star_cons r c s :
  Regex.Matches (Regex.Star r) (c :: s) ->
  exists s1 s2, s = s1 ++ s2 /\ Regex.Matches r (c :: s1) /\ Regex.Matches (Regex.Star r) s2.
Proof.
  intros H. remember (Regex.Star r) as r' eqn:Er. remember (c :: s) as w eqn:Ew.
  revert s Ew. induction H as [| | | | | |r0 s1 s2 H1 _ H2 IH2]; intros t Ew; try discriminate.
  injection Er as ->. destruct s1 as [|c1 s1]; simpl in Ew.
  - by apply IH2.
  - injection Ew as -> <-. eauto.
Qed.

Lemma nullable_spec r : Regex.nullable r = true <-> Regex.Matches r [].
Proof.
  induction r as [| |p|r1 IH1 r2 IH2|r1 IH1 r2 IH2|r IH]; simpl.
  - split; [done | inversion 1].
  - split; [constructor | done].
  - split; [done | inversion 1].
  - rewrite andb_true_iff, IH1, IH2, Matches_Seq_inv. split.
    + intros [H1 H2]. by exists [], [].
    + intros (s1 & s2 & E & H1 & H2).
      symmetry in E. apply app_eq_nil in E as [-> ->]. done.
  - rewrite orb_true_iff, IH1, IH2, Matches_Alt_inv. done.
  - split; [constructor | done].
Qed.

Lemma deriv_spec c r s :
  Regex.Matches (Regex.deriv c r) s <-> Regex.Matches r (c :: s).
Proof.
  revert s. induction r as [| |p|r1 IH1 r2 IH2|r1 IH1 r2 IH2|r IH]; intros s; simpl.
  - split; inversion 1.
  - split; inversion 1.
  - destruct (p c) eqn:E; split.
    + inversion 1; subst. by constructor.
    + inversion 1; subst. constructor.
    + inversion 1.
    + inversion 1; subst. congruence.
  - assert (Hseq : Regex.Matches (Regex.Seq (Regex.deriv c r1) r2) s <->
                   exists s1 s2, s = s1 ++ s2 /\ Regex.Matches r1 (c :: s1) /\ Regex.Matches r2 s2).
    { rewrite Matches_Seq_inv. split; intros (s1 & s2 & E & H1 & H2);
        exists s1, s2; (split; [done|]); split; try done; by apply IH1. }
    destruct (Regex.nullable r1) eqn:En.
    + rewrite Matches_Alt_inv, Hseq, IH2, Matches_Seq_inv. split.
      * intros [(s1 & s2 & -> & H1 & H2) | H2].
        -- exists (c :: s1), s2. done.
        -- exists [], (c :: s). split; [done|]. split; [|done]. by apply nullable_spec.
      * intros (s1 & s2 & E & H1 & H2). destruct s1 as [|c1 s1]; simpl in E.
        -- right. by rewrite E.
        -- injection E as <- ->. left. eauto.
    + rewrite Hseq, Matches_Seq_inv. split.
      * intros (s1 & s2 & -> & H1 & H2). exists (c :: s1), s2. done.
      * intros (s1 & s2 & E & H1 & H2). destruct s1 as [|c1 s1]; simpl in E.
        -- apply nullable_spec in H1. congruence.
        -- injection E as <- ->. eauto.
  - rewrite !Matches_Alt_inv, IH1, IH2. done.
  - rewrite Matches_Seq_inv. split.
    + intros (s1 & s2 & -> & H1 & H2). apply IH in H1.
      change (c :: s1 ++ s2) with ((c :: s1) ++ s2). by constructor.
    + intros H. apply Matches_Star_cons in H as (s1 & s2 & -> & H1 & H2).
      exists s1, s2. split; [done|]. split; [by apply IH | done].
Qed.

Lemma test_spec r s : Regex.test r s = true <-> Regex.Matches r s.
Proof.
  unfold Regex.test. revert r. induction s as [|c s IH]; intros r; simpl.
  - apply nullable_spec.
  - rewrite IH. apply deriv_spec.
Qed.

Lemma Matches_Star_Class p s :
  Regex.Matches (Regex.Star (Regex.Class p)) s <-> Forall (fun c => p c = true) s.
Proof.
  split.
  - induction s as [|c s IH]; intros H; [constructor|].
    apply Matches_Star_cons in H as (s1 & s2 & -> & H1 & H2).
    apply Matches_Class_inv in H1 as (c' & E & Hp). injection E as <- ->.
    constructor; [done | by apply IH].
  - induction 1 as [|c s Hc _ IH]; [constructor|].
    change (c :: s) with ([c] ++ s). constructor; [by constructor | done].
Qed.

Lemma Matches_Plus_Class p s :
  Regex.Matches (Regex.Plus (Regex.Class p)) s <->
  s <> [] /\ Forall (fun c => p c = true) s.
Proof.
  unfold Regex.Plus. rewrite Matches_Seq_inv. split.
  - intros (s1 & s2 & -> & H1 & H2).
    apply Matches_Class_inv in H1 as (c & -> & Hp).
    apply Matches_Star_Class in H2. split; [done | by constructor].
  - intros [Hne H]. destruct H as [|c s Hc H]; [done|].
    exists [c], s. split; [done|]. split; [by constructor | by apply Matches_Star_Class].
Qed.

Lemma Matches_Chr c s : Regex.Matches (Regex.Chr c) s <-> s = [c].
Proof.
  unfold Regex.Chr. rewrite Matches_Class_inv. split.
  - intros (c' & -> & H). apply N.eqb_eq in H. by subst.
  - intros ->. exists c. split; [done | apply N.eqb_refl].
Qed.

Lemma not_space_at_spec c :
  api.not_space_at c = true <-> is_whitespace c = false /\ c <> 64.
Proof.
  unfold api.not_space_at. rewrite negb_true_iff, orb_false_iff, N.eqb_neq. done.
Qed.

Lemma segment_spec s :
  Regex.Matches (Regex.Plus (Regex.Class api.not_space_at)) s <-> segment s.
Proof.
  rewrite Matches_Plus_Class. unfold segment. split; intros [Hne H]; (split; [done|]).
  - eapply Forall_impl; [exact H|]. intros c Hc. by apply not_space_at_spec.
  - eapply Forall_impl; [exact H|]. intros c Hc. by apply not_space_at_spec.
Qed.

(** What the pattern of [validateEmail] accepts. *)
Lemma validateEmail_spec e :
  api.validateEmail e = true <-> address_shape segment e.
Proof.
  unfold api.validateEmail, api.emailRegex, address_shape.
  rewrite test_spec, Matches_Seq_inv. split.
  - intros (l & r1 & -> & Hl & H).
    apply Matches_Seq_inv in H as (a & r2 & -> & Ha & H).
    apply Matches_Seq_inv in H as (d & r3 & -> & Hd & H).
    apply Matches_Seq_inv in H as (dot & t & -> & Hdot & Ht).
    apply Matches_Chr in Ha as ->. apply Matches_Chr in Hdot as ->.
    exists l, d, t. rewrite <- !segment_spec. done.
  - intros (l & d & t & -> & Hl & Hd & Ht).
    exists l, ([64] ++ d ++ [46] ++ t). split; [done|]. split; [by apply segment_spec|].
    apply Matches_Seq_inv. exists [64], (d ++ [46] ++ t). split; [done|].
    split; [by apply Matches_Chr|].
    apply Matches_Seq_inv. exists d, ([46] ++ t). split; [done|].
    split; [by apply segment_spec|].
    apply Matches_Seq_inv. exists [46], t. split; [done|].
    split; [by apply Matches_Chr | by apply segment_spec].
Qed.

Example validateEmail_examples :
  api.validateEmail (str "a@b.com") = true /\
  api.validateEmail (str "first.last@mail.example.org") = true /\
  api.validateEmail (str "a@b") = false /\
  api.validateEmail (str "a.b.com") = false /\
  api.validateEmail (str "a@@b.com") = false /\
  api.validateEmail (str "a b@c.com") = false /\
  api.validateEmail (str " a@b.com") = false /\
  api.validateEmail (str "a@b.") = false /\
  api.validateEmail (str "@b.com") = false.
Proof. vm_compute. repeat split. Qed.

(** ** Validation of a draft *)

Lemma segment_no_space s : segment s -> Forall (fun c => is_whitespace c = false) s.
Proof. intros [_ H]. eapply Forall_impl; [exact H|]. by intros c [Hc _]. Qed.

Lemma segment_no_at s : segment s -> ~ In 64 s.
Proof.
  intros [_ H] Hin. rewrite Forall_forall in H.
  apply list_elem_of_In in Hin. destruct (H _ Hin) as [_ Hne]. done.
Qed.

(** A string of the accepted shape has no whitespace at all. *)
Lemma address_shape_no_space e :
  address_shape segment e -> Forall (fun c => is_whitespace c = false) e.
Proof.
  intros (l & d & t & -> & Hl & Hd & Ht).
  rewrite !Forall_app. repeat split; try by apply segment_no_space.
  - by repeat constructor.
  - by repeat constructor.
Qed.

Lemma address_shape_has_at e : address_shape segment e -> In 64 e.
Proof.
  intros (l & d & t & -> & _). rewrite in_app_iff. right. by left.
Qed.

Lemma address_shape_has_domain_dot e : address_shape segment e -> has_domain_dot e.
Proof.
  intros (l & d & t & -> & _). exists l, (d ++ [46] ++ t). split; [done|].
  rewrite in_app_iff. right. by left.
Qed.

Lemma address_shape_not_blank e : address_shape segment e -> trim e <> [].
Proof.
  intros H Ht. apply trim_blank in Ht.
  pose proof (address_shape_no_space e H) as Hn.
  destruct H as (l & d & t & -> & [Hl _] & _).
  destruct l as [|c l]; [done|].
  inversion Ht; subst. inversion Hn; subst. congruence.
Qed.

Lemma email_error_cases fd :
  let e := StudentForm.form_email fd in
  (trim e = [] /\ StudentForm.email_error fd = Some msg_email_required) \/
  (trim e <> [] /\ ~ address_shape segment e /\
     StudentForm.email_error fd = Some msg_email_invalid) \/
  (trim e <> [] /\ address_shape segment e /\ StudentForm.email_error fd = None).
Proof.
  unfold StudentForm.email_error. simpl.
  destruct (truthy (trim (StudentForm.form_email fd))) eqn:Et; simpl.
  - apply truthy_true in Et.
    destruct (api.validateEmail (StudentForm.form_email fd)) eqn:Ev; simpl.
    + right. right. by apply validateEmail_spec in Ev.
    + right. left. split; [done|]. split; [|done].
      intros H. apply validateEmail_spec in H. congruence.
  - apply truthy_false in Et. by left.
Qed.

Lemma name_error_cases fd :
  let n := trim (StudentForm.form_name fd) in
  (n = [] /\ StudentForm.name_error fd = Some msg_name_required) \/
  (n <> [] /\ (length n < 2)%nat /\ StudentForm.name_error fd = Some msg_name_short) \/
  ((2 <= length n)%nat /\ StudentForm.name_error fd = None).
Proof.
  unfold StudentForm.name_error. simpl.
  destruct (truthy (trim (StudentForm.form_name fd))) eqn:Et; simpl.
  - apply truthy_true in Et.
    destruct (length (trim (StudentForm.form_name fd)) <? 2)%nat eqn:El.
    + apply Nat.ltb_lt in El. right. by left.
    + apply Nat.ltb_ge in El. right. by right.
  - apply truthy_false in Et. by left.
Qed.

Lemma course_error_cases fd :
  (StudentForm.form_enrolledCourse fd = [] /\
     StudentForm.course_error fd = Some msg_course_required) \/
  (StudentForm.form_enrolledCourse fd <> [] /\ StudentForm.course_error fd = None).
Proof.
  unfold StudentForm.course_error.
  destruct (StudentForm.form_enrolledCourse fd); simpl; [by left | by right].
Qed.

Lemma validateForm_verdict fd :
  snd (StudentForm.validateForm fd) = true <->
  StudentForm.name_error fd = None /\ StudentForm.email_error fd = None /\
  StudentForm.course_error fd = None.
Proof.
  unfold StudentForm.validateForm, StudentForm.Object_keys. simpl.
  destruct (StudentForm.name_error fd), (StudentForm.email_error fd),
    (StudentForm.course_error fd); simpl; split; try done; intros (? & ? & ?); done.
Qed.

(** C6.  For every draft: the name is flagged "required" exactly when it is
    empty after trimming, "too short" exactly when the trimmed name is
    non-empty and shorter than 2, and not flagged otherwise; the course is
    flagged exactly when it is empty; and the error set is empty (the draft
    is valid) if and only if the name, email and course checks all pass. *)
Theorem validate_name_course_verdict (fd : StudentForm.FormData) :
  let errs := fst (StudentForm.validateForm fd) in
  let n := trim (StudentForm.form_name fd) in
  (err_name errs = Some msg_name_required <-> n = []) /\
  (err_name errs = Some msg_name_short <-> n <> [] /\ (length n < 2)%nat) /\
  (err_name errs = None <-> (2 <= length n)%nat) /\
  (err_enrolledCourse errs = Some msg_course_required <->
     StudentForm.form_enrolledCourse fd = []) /\
  (err_enrolledCourse errs = None <-> StudentForm.form_enrolledCourse fd <> []) /\
  (StudentForm.Object_keys errs = [] <->
     err_name errs = None /\ err_email errs = None /\ err_enrolledCourse errs = None) /\
  (snd (StudentForm.validateForm fd) = true <-> StudentForm.Object_keys errs = []).
Proof.
  cbn zeta.
  assert (Hmsg : msg_name_required <> msg_name_short) by (vm_compute; discriminate).
  unfold StudentForm.validateForm, StudentForm.Object_keys.
  cbn [fst snd err_name err_email err_enrolledCourse].
  destruct (name_error_cases fd) as [[En E] | [(En & El & E) | [El E]]];
    cbn zeta in *; rewrite E;
    (destruct (course_error_cases fd) as [[Ec E'] | [Ec E']]; rewrite E');
    destruct (StudentForm.email_error fd);
    try rewrite En in *; cbn [length app Nat.eqb] in *;
    repeat split; intros; destruct_and?; simplify_eq; try done; try lia.
  all: exfalso;
    match goal with H : trim _ = [] |- _ => rewrite H in *; cbn [length] in *; lia end.
Qed.

(** C5 (as amended).  For every draft: the email is flagged "required"
    exactly when it is empty after trimming; otherwise it is flagged
    "invalid format" exactly when the raw value is not of the shape
    local [@] domain [.] tld whose three segments are non-empty and free of
    whitespace and of [@]; in particular a value without [@], or without a
    dot after an [@], is never accepted, and [a@b.com] is accepted. *)
Theorem validate_email (fd : StudentForm.FormData) :
  let e := StudentForm.form_email fd in
  let err := err_email (fst (StudentForm.validateForm fd)) in
  (err = Some msg_email_required <-> trim e = []) /\
  (err = Some msg_email_invalid <-> trim e <> [] /\ ~ address_shape segment e) /\
  (err = None <-> address_shape segment e) /\
  (~ In 64 e -> err <> None) /\
  (~ has_domain_dot e -> err <> None) /\
  (forall n c p,
     err_email (fst (StudentForm.validateForm
                       (StudentForm.mkFormData n (str "a@b.com") c p))) = None).
Proof.
  cbn zeta. unfold StudentForm.validateForm. cbn [fst err_email].
  assert (Hmsg : msg_email_required <> msg_email_invalid) by (vm_compute; discriminate).
  split; [|split; [|split; [|split; [|split]]]].
  - destruct (email_error_cases fd) as [[Ht E] | [(Ht & Hn & E) | (Ht & Hs & E)]];
      rewrite E; split; intros; simplify_eq; done.
  - destruct (email_error_cases fd) as [[Ht E] | [(Ht & Hn & E) | (Ht & Hs & E)]];
      rewrite E; split; intros; destruct_and?; simplify_eq; done.
  - destruct (email_error_cases fd) as [[Ht E] | [(Ht & Hn & E) | (Ht & Hs & E)]];
      rewrite E; split; intros H; simplify_eq; try done.
    by apply address_shape_not_blank in H.
  - intros Hat E. destruct (email_error_cases fd) as [[_ E'] | [(_ & _ & E') | (_ & Hs & _)]];
      [congruence | congruence |]. by apply address_shape_has_at in Hs.
  - intros Hdot E. destruct (email_error_cases fd) as [[_ E'] | [(_ & _ & E') | (_ & Hs & _)]];
      [congruence | congruence |]. by apply address_shape_has_domain_dot in Hs.
  - intros n c p. unfold StudentForm.email_error. cbn [StudentForm.form_email].
    reflexivity.
Qed.

Lemma no_space_has_no_blank pre core post :
  Blank pre -> Blank post -> pre ++ post <> [] ->
  ~ Forall (fun c => is_whitespace c = false) (pre ++ core ++ post).
Proof.
  intros Hpre Hpost Hne H. rewrite !Forall_app in H. destruct H as (H1 & _ & H3).
  destruct pre as [|c pre].
  - destruct post as [|c post]; [done|].
    inversion Hpost; subst. inversion H3; subst. congruence.
  - inversion Hpre; subst. inversion H1; subst. congruence.
Qed.

Section RawEmail.
Variable toLowerCase : jsstring -> jsstring.

(** C10.  The format check reads the raw email: when the email of a draft is
    an accepted address with whitespace before or after it, validation
    reports "invalid format" and the draft is not valid, although the value
    that a commit would store, the trimmed and lower-cased email, is the
    lower-cased address itself. *)
Theorem padded_email_is_rejected (fd : StudentForm.FormData) (pre addr post : jsstring) :
  StudentForm.form_email fd = pre ++ addr ++ post ->
  api.validateEmail addr = true ->
  Blank pre -> Blank post -> pre ++ post <> [] ->
  err_email (fst (StudentForm.validateForm fd)) = Some msg_email_invalid /\
  snd (StudentForm.validateForm fd) = false /\
  (forall student d,
     email (StudentForm.studentData toLowerCase student fd d) = toLowerCase addr).
Proof.
  intros He Hv Hpre Hpost Hne.
  apply validateEmail_spec in Hv.
  assert (Htrim : trim (StudentForm.form_email fd) = addr).
  { rewrite He. apply trim_surrounded; try done.
    - intros ->. apply address_shape_not_blank in Hv. by apply Hv.
    - by apply address_shape_no_space. }
  assert (Herr : StudentForm.email_error fd = Some msg_email_invalid).
  { destruct (email_error_cases fd) as [[Ht _] | [(_ & _ & E) | (_ & Hs & _)]].
    - rewrite Htrim in Ht. rewrite Ht in Hv.
      apply address_shape_not_blank in Hv. exfalso. by apply Hv.
    - done.
    - apply address_shape_no_space in Hs. rewrite He in Hs.
      by apply no_space_has_no_blank in Hs. }
  split; [done|]. split.
  - destruct (snd (StudentForm.validateForm fd)) eqn:E; [|done].
    apply validateForm_verdict in E as (_ & E & _). congruence.
  - intros student d. cbn [StudentForm.studentData email]. by rewrite Htrim.
Qed.
End RawEmail.

(** ** Search *)

Lemma filter_Selects {A} (p : A -> bool) (P : A -> Prop) (l : list A) :
  (forall x, p x = true <-> P x) -> Selects P l (List.filter p l).
Proof.
  intros Hp. induction l as [|x l IH]; simpl; [constructor|].
  destruct (p x) eqn:E.
  - apply Selects_keep; [by apply Hp | done].
  - apply Selects_drop; [|done]. intros H. apply Hp in H. congruence.
Qed.

Lemma Selects_sublist {A} (P : A -> Prop) (l l' : list A) :
  Selects P l l' -> sublist l' l.
Proof. induction 1; by constructor. Qed.

Lemma Selects_elem_of {A} (P : A -> Prop) (l l' : list A) (x : A) :
  Selects P l l' -> (In x l' <-> In x l /\ P x).
Proof.
  induction 1 as [|y l l' Hy _ IH|y l l' Hy _ IH]; simpl.
  - tauto.
  - rewrite IH. split; [intros [-> | [? ?]]; auto | tauto].
  - rewrite IH. split; [tauto | intros [[-> | ?] ?]; [done | auto]].
Qed.

Section Search.
Variable toLowerCase : jsstring -> jsstring.

(** C4.  For every collection and search term: a term that is empty or
    whitespace only yields the whole collection; any other term yields
    exactly the records for which the lower-cased term is a substring of the
    lower-cased name, email or course, each in the position order of the
    collection. *)
Theorem search_selects_matching (students : list Student) (term : jsstring) :
  let result := StudentList.filteredStudents toLowerCase students term in
  ((Blank term /\ result = students) \/
   (~ Blank term /\ Selects (term_matches toLowerCase term) students result)) /\
  sublist result students.
Proof.
  cbn zeta. unfold StudentList.filteredStudents.
  destruct (truthy (trim term)) eqn:Et; cbn [negb].
  - apply truthy_true in Et.
    assert (Hsel : Selects (term_matches toLowerCase term) students
              (List.filter (fun student =>
                 includes (toLowerCase (name student)) (toLowerCase term) ||
                 includes (toLowerCase (email student)) (toLowerCase term) ||
                 includes (toLowerCase (enrolledCourse student)) (toLowerCase term))
                 students)).
    { apply filter_Selects. intros s. unfold term_matches.
      rewrite !orb_true_iff, !includes_spec. tauto. }
    split.
    + right. split; [|done]. intros Hb. by apply trim_blank in Hb.
    + by apply Selects_sublist in Hsel.
  - apply truthy_false, trim_blank in Et. split; [by left | done].
Qed.
End Search.

(** The example of the specification: searching "BOB" in a collection whose
    second record has the email x@bob.com returns that record only. *)
Example search_bob :
  StudentList.filteredStudents toLowerCaseASCII [ann; bob] (str "BOB") = [bob].
Proof. reflexivity. Qed.

(** ** The record store in memory: add, update, submit *)

Lemma saveStudents_returns students h :
  fst (storage.saveStudents students h) = Normal tt.
Proof.
  unfold storage.saveStudents, try_catch, setItem.
  destruct (decide _); reflexivity.
Qed.

Lemma persist_returns st h : fst (useStudents.persist st h) = Normal tt.
Proof.
  unfold useStudents.persist.
  destruct (negb (useStudents.isLoading st) && _); [apply saveStudents_returns | done].
Qed.

Lemma setStudents_returns updater st h :
  useStudents.setStudents updater st h =
  (Normal (useStudents.mkState (updater (useStudents.students st)) (useStudents.isLoading st)),
   snd (useStudents.persist
          (useStudents.mkState (updater (useStudents.students st)) (useStudents.isLoading st)) h)).
Proof.
  unfold useStudents.setStudents, eff_bind.
  pose proof (persist_returns
    (useStudents.mkState (updater (useStudents.students st)) (useStudents.isLoading st)) h) as H.
  destruct (useStudents.persist _ h) as [[[]|e] h']; simpl in *; [done | discriminate].
Qed.

Lemma replace_by_id_no_match u prev :
  (forall s, In s prev -> id s <> id u) -> replace_by_id u prev = prev.
Proof.
  intros H. unfold replace_by_id. induction prev as [|s prev IH]; simpl; [done|].
  destruct (decide (id s = id u)) as [E|_].
  - exfalso. apply (H s); [by left | done].
  - f_equal. apply IH. intros s' Hs'. apply H. by right.
Qed.

Lemma replace_by_id_lookup u prev i s :
  prev !! i = Some s ->
  replace_by_id u prev !! i = Some (if decide (id s = id u) then u else s).
Proof.
  unfold replace_by_id. revert i. induction prev as [|s' prev IH]; intros i H.
  - by destruct i.
  - destruct i as [|i]; simpl in *.
    + by injection H as ->.
    + by apply IH.
Qed.

Lemma updateStudent_returns u st h :
  useStudents.updateStudent u st h =
  (Normal (useStudents.mkState (replace_by_id u (useStudents.students st))
             (useStudents.isLoading st)),
   snd (useStudents.persist
          (useStudents.mkState (replace_by_id u (useStudents.students st))
             (useStudents.isLoading st)) h)).
Proof. unfold useStudents.updateStudent. by rewrite setStudents_returns. Qed.

Lemma addStudent_returns s st h :
  useStudents.addStudent s st h =
  (Normal (useStudents.mkState (useStudents.students st ++ [s]) (useStudents.isLoading st)),
   snd (useStudents.persist
          (useStudents.mkState (useStudents.students st ++ [s]) (useStudents.isLoading st)) h)).
Proof. unfold useStudents.addStudent. by rewrite setStudents_returns. Qed.




Lemma handleFormSubmit_returns sd st h :
  exists hook h',
    App.handleFormSubmit sd st h =
      (Normal (App.mkState hook (App.coursesHook st) false None (App.searchTerm st)), h') /\
    useStudents.students hook =
      match App.editingStudent st with
      | Some _ => replace_by_id sd (useStudents.students (App.studentsHook st))
      | None => useStudents.students (App.studentsHook st) ++ [sd]
      end.
Proof.
  unfold App.handleFormSubmit, eff_bind.
  destruct (App.editingStudent st).
  - rewrite updateStudent_returns. eauto.
  - rewrite addStudent_returns. eauto.
Qed.

Section SubmitFacts.
Variable toLowerCase : jsstring -> jsstring.

Lemma handleSubmit_invalid {X} student (onSubmit : Student -> Eff X) d st h :
  snd (StudentForm.validateForm (StudentForm.formData st)) = false ->
  StudentForm.handleSubmit toLowerCase student onSubmit d st h =
  (Normal (StudentForm.mkState (StudentForm.formData st)
             (fst (StudentForm.validateForm (StudentForm.formData st)))
             (StudentForm.isSubmitting st), None), h).
Proof.
  intros H. unfold StudentForm.handleSubmit.
  destruct (StudentForm.validateForm (StudentForm.formData st)) as [errs ok].
  simpl in *. by rewrite H.
Qed.

Lemma submit_form_valid d p fs h :
  App.form p = Some fs -> StudentForm.isSubmitting fs = false ->
  snd (StudentForm.validateForm (StudentForm.formData fs)) = true ->
  exists hook h',
    App.submit_form toLowerCase d p h =
      (Normal (App.mkPage
                 (App.mkState hook (App.coursesHook (App.app p)) false None
                    (App.searchTerm (App.app p))) None), h') /\
    useStudents.students hook =
      match App.editingStudent (App.app p) with
      | Some s =>
          replace_by_id
            (StudentForm.studentData toLowerCase (Some s) (StudentForm.formData fs) d)
            (useStudents.students (App.studentsHook (App.app p)))
      | None =>
          useStudents.students (App.studentsHook (App.app p)) ++
          [StudentForm.studentData toLowerCase None (StudentForm.formData fs) d]
      end.
Proof.
  intros Hf Hs Hv. unfold App.submit_form. rewrite Hf, Hs.
  unfold StudentForm.handleSubmit.
  destruct (StudentForm.validateForm (StudentForm.formData fs)) as [errs ok].
  simpl in Hv. subst ok. cbn [negb].
  destruct (handleFormSubmit_returns
              (StudentForm.studentData toLowerCase (App.editingStudent (App.app p))
                 (StudentForm.formData fs) d) (App.app p) h) as (hook & h' & E & Hst).
  exists hook, h'. split.
  - unfold eff_bind, try_catch. rewrite E. reflexivity.
  - rewrite Hst. by destruct (App.editingStudent (App.app p)).
Qed.

(** A record built by a submission carries an enrollment date whenever the
    clock of the host renders a non-empty time stamp. *)
Lemma studentData_is_dated student fd d :
  StudentForm.now_toISOString d <> [] ->
  dateEnrolled (StudentForm.studentData toLowerCase student fd d) <> [].
Proof.
  intros Hnow. cbn [StudentForm.studentData dateEnrolled].
  destruct student as [s|]; [|done].
  destruct (truthy (dateEnrolled s)) eqn:E; [by apply truthy_true in E | done].
Qed.

Lemma submit_form_invalid d p fs h :
  App.form p = Some fs ->
  StudentForm.isSubmitting fs = false ->
  snd (StudentForm.validateForm (StudentForm.formData fs)) = false ->
  App.submit_form toLowerCase d p h =
  (Normal (App.mkPage (App.app p)
             (Some (StudentForm.mkState (StudentForm.formData fs)
                      (fst (StudentForm.validateForm (StudentForm.formData fs)))
                      false))), h).
Proof.
  intros Hf Hs Hv. unfold App.submit_form. rewrite Hf, Hs.
  unfold eff_bind. rewrite handleSubmit_invalid by done. by rewrite Hs.
Qed.

(** C9.  When the draft of the open form fails validation, submitting it
    stores the error set in the form and changes nothing else: the state of
    the application, with the collection in memory, is the one before the
    call, and so is the host, with the persisted blob and the console. *)
Theorem invalid_draft_changes_nothing (d : StudentForm.Draws) (p : App.Page)
    (fs : StudentForm.State) (h : Host) :
  App.form p = Some fs ->
  StudentForm.isSubmitting fs = false ->
  snd (StudentForm.validateForm (StudentForm.formData fs)) = false ->
  App.submit_form toLowerCase d p h =
  (Normal (App.mkPage (App.app p)
             (Some (StudentForm.mkState (StudentForm.formData fs)
                      (fst (StudentForm.validateForm (StudentForm.formData fs)))
                      false))), h) /\
  StudentForm.Object_keys (fst (StudentForm.validateForm (StudentForm.formData fs))) <> [].
Proof.
  intros Hf Hs Hv. split; [by apply submit_form_invalid|].
  intros Hk. unfold StudentForm.validateForm in Hv, Hk. cbn [fst snd] in Hv, Hk.
  rewrite Hk in Hv. discriminate.
Qed.

(** C3 (as amended).  For every record of the collection whose enrollment
    date is not the empty string, and every draft submitted from the edit
    form opened for it, the record at its position afterwards has the
    enrollment date of the original.  When the draft is valid and the id of
    the original is not empty either, that record has the id and date of the
    original and the name, email, course and image of the draft. *)
Theorem update_keeps_enrollment_date (d : StudentForm.Draws) (p : App.Page)
    (student : Student) (i : nat) (h : Host) :
  App.editingStudent (App.app p) = Some student ->
  useStudents.students (App.studentsHook (App.app p)) !! i = Some student ->
  dateEnrolled student <> [] ->
  exists p' r,
    fst (App.submit_form toLowerCase d p h) = Normal p' /\
    useStudents.students (App.studentsHook (App.app p')) !! i = Some r /\
    dateEnrolled r = dateEnrolled student /\
    (forall fs,
       App.form p = Some fs ->
       StudentForm.isSubmitting fs = false ->
       snd (StudentForm.validateForm (StudentForm.formData fs)) = true ->
       id student <> [] ->
       r = mkStudent (id student)
             (trim (StudentForm.form_name (StudentForm.formData fs)))
             (toLowerCase (trim (StudentForm.form_email (StudentForm.formData fs))))
             (StudentForm.form_enrolledCourse (StudentForm.formData fs))
             (if truthy (StudentForm.form_profileImage (StudentForm.formData fs))
              then StudentForm.form_profileImage (StudentForm.formData fs)
              else StudentForm.placeholder d)
             (dateEnrolled student)).
Proof.
  intros He Hi Hd.
  destruct (App.form p) as [fs|] eqn:Hf.
  - destruct (StudentForm.isSubmitting fs) eqn:Hs.
    + exists p, student. unfold App.submit_form. rewrite Hf, Hs.
      repeat split; try done. intros fs' [= <-] Hs'. congruence.
    + destruct (snd (StudentForm.validateForm (StudentForm.formData fs))) eqn:Hv.
      * destruct (submit_form_valid d p fs h Hf Hs Hv) as (hook & h' & E & Hst).
        rewrite He in Hst.
        set (sd := StudentForm.studentData toLowerCase (Some student)
                     (StudentForm.formData fs) d) in *.
        assert (Hsd : dateEnrolled sd = dateEnrolled student).
        { unfold sd. cbn [StudentForm.studentData dateEnrolled].
          apply truthy_true in Hd. by rewrite Hd. }
        exists (App.mkPage
                  (App.mkState hook (App.coursesHook (App.app p)) false None
                     (App.searchTerm (App.app p))) None),
          (if decide (id student = id sd) then sd else student).
        rewrite E. cbn [fst App.app App.studentsHook]. split; [done|]. split.
        { rewrite Hst. by apply replace_by_id_lookup. }
        split.
        { by destruct (decide (id student = id sd)). }
        intros fs' [= <-] _ _ Hid. apply truthy_true in Hid, Hd.
        assert (Eid : id sd = id student).
        { unfold sd. cbn [StudentForm.studentData id]. by rewrite Hid. }
        rewrite decide_True by done.
        unfold sd, StudentForm.studentData. by rewrite Hid, Hd.
      * rewrite (submit_form_invalid d p fs h Hf Hs Hv).
        eexists _, student. cbn [fst App.app]. repeat split; try done.
        intros fs' [= <-] _ Hv'. congruence.
  - exists p, student. unfold App.submit_form. rewrite Hf.
    repeat split; try done.
Qed.

End SubmitFacts.

(** ** JSON: parsing what [stringify] prints *)

(** Induction on JSON trees, with the hypothesis for every element of an
    array and every member of an object. *)
Lemma json_induction (P : Json.json -> Prop) :
  P Json.JNull ->
  (forall b, P (Json.JBool b)) ->
  (forall literal, P (Json.JNum literal)) ->
  (forall s, P (Json.JStr s)) ->
  (forall items, Forall P items -> P (Json.JArr items)) ->
  (forall members, Forall (fun kv => P (snd kv)) members -> P (Json.JObj members)) ->
  forall v, P v.
Proof.
  intros Hnull Hbool Hnum Hstr Harr Hobj.
  fix IH 1. intros [ | b | literal | s | items | members].
  - exact Hnull.
  - apply Hbool.
  - apply Hnum.
  - apply Hstr.
  - apply Harr. induction items as [|v items IHitems]; constructor; [apply IH | exact IHitems].
  - apply Hobj. induction members as [|[k v] members IHm]; constructor;
      [apply IH | exact IHm].
Qed.

Lemma comma_separated_cons (p : list Json.token) (ps : list (list Json.token)) :
  Json.comma_separated (p :: ps) =
  p ++ List.concat (List.map (fun q => Json.TComma :: q) ps).
Proof.
  revert p. induction ps as [|q ps IH]; intros p.
  - simpl. by rewrite app_nil_r.
  - change (Json.comma_separated (p :: q :: ps))
      with (p ++ Json.TComma :: Json.comma_separated (q :: ps)).
    rewrite IH. reflexivity.
Qed.

(** The first token of a value starts a value, also right after [[]. *)
Lemma parse_first_element v stack rest :
  Json.parse_from (Json.PArrFirst, stack) (Json.tokens_of v ++ rest) =
  Json.parse_from (Json.PValue, Json.FArr [] :: stack) (Json.tokens_of v ++ rest).
Proof. destruct v as [ | [|] | | | | ]; reflexivity. Qed.

Lemma parse_elements vs :
  Forall (fun v => forall stack rest,
            Json.parse_from (Json.PValue, stack) (Json.tokens_of v ++ rest) =
            Json.parse_from (Json.PDone v, stack) rest) vs ->
  forall done v stack rest,
    Json.parse_from (Json.PDone v, Json.FArr done :: stack)
      (List.concat (List.map (fun q => Json.TComma :: q) (List.map Json.tokens_of vs))
       ++ Json.TRBracket :: rest) =
    Json.parse_from (Json.PDone (Json.JArr (rev done ++ v :: vs)), stack) rest.
Proof.
  induction 1 as [|w vs Hw _ IH]; intros done v stack rest.
  - reflexivity.
  - cbn [List.map List.concat]. rewrite <- !app_assoc.
    change ((Json.TComma :: Json.tokens_of w) ++ ?l)
      with (Json.TComma :: (Json.tokens_of w ++ l)).
    cbn [Json.parse_from Json.parse_step].
    rewrite Hw, IH. cbn [rev]. by rewrite <- app_assoc.
Qed.

Lemma parse_members ms :
  Forall (fun kv => forall stack rest,
            Json.parse_from (Json.PValue, stack) (Json.tokens_of (snd kv) ++ rest) =
            Json.parse_from (Json.PDone (snd kv), stack) rest) ms ->
  forall done k v stack rest,
    Json.parse_from (Json.PDone v, Json.FObj done k :: stack)
      (List.concat (List.map (fun q => Json.TComma :: q)
         (List.map (fun kv => Json.TString (fst kv) :: Json.TColon :: Json.tokens_of (snd kv)) ms))
       ++ Json.TRBrace :: rest) =
    Json.parse_from (Json.PDone (Json.JObj (rev done ++ (k, v) :: ms)), stack) rest.
Proof.
  induction 1 as [|[k' w] ms Hw _ IH]; intros done k v stack rest.
  - reflexivity.
  - cbn [List.map List.concat fst snd]. rewrite <- !app_assoc.
    change ((Json.TComma :: Json.TString k' :: Json.TColon :: Json.tokens_of w) ++ ?l)
      with (Json.TComma :: Json.TString k' :: Json.TColon :: (Json.tokens_of w ++ l)).
    cbn [Json.parse_from Json.parse_step].
    cbn [snd] in Hw. rewrite Hw, IH. cbn [rev]. by rewrite <- app_assoc.
Qed.

(** The parser, given the tokens of a value where a value is expected,
    delivers that value. *)
Lemma parse_tokens_of v :
  forall stack rest,
    Json.parse_from (Json.PValue, stack) (Json.tokens_of v ++ rest) =
    Json.parse_from (Json.PDone v, stack) rest.
Proof.
  induction v as [ | b | literal | s | items IH | members IH] using json_induction;
    intros stack rest; try reflexivity.
  - by destruct b.
  - cbn [Json.tokens_of]. destruct items as [|v items].
    + reflexivity.
    + cbn [List.map]. rewrite comma_separated_cons.
      inversion IH as [|? ? Hv Hitems]; subst.
      change ((Json.TLBracket :: ?a ++ [Json.TRBracket]) ++ rest)
        with (Json.TLBracket :: ((a ++ [Json.TRBracket]) ++ rest)).
      rewrite <- !app_assoc.
      cbn [Json.parse_from Json.parse_step Json.start_value].
      rewrite parse_first_element, Hv.
      change ([Json.TRBracket] ++ rest) with (Json.TRBracket :: rest).
      by rewrite (parse_elements items Hitems).
  - cbn [Json.tokens_of]. destruct members as [|[k v] members].
    + reflexivity.
    + cbn [List.map fst snd]. rewrite comma_separated_cons.
      inversion IH as [|? ? Hv Hmembers]; subst. cbn [snd] in Hv.
      change ((Json.TLBrace :: ?a ++ [Json.TRBrace]) ++ rest)
        with (Json.TLBrace :: ((a ++ [Json.TRBrace]) ++ rest)).
      rewrite <- !app_assoc.
      change ((Json.TString k :: Json.TColon :: Json.tokens_of v) ++ ?l)
        with (Json.TString k :: Json.TColon :: (Json.tokens_of v ++ l)).
      cbn [Json.parse_from Json.parse_step Json.start_value].
      rewrite Hv.
      change ([Json.TRBrace] ++ rest) with (Json.TRBrace :: rest).
      by rewrite (parse_members members Hmembers).
Qed.

Lemma parse_from_tokens_of v :
  Json.parse_from (Json.PValue, []) (Json.tokens_of v) = Some v.
Proof.
  rewrite <- (app_nil_r (Json.tokens_of v)). by rewrite parse_tokens_of.
Qed.

Lemma emit_nil r : Json.emit [] r = r.
Proof. by destruct r. Qed.

Lemma emit_emit ts us r : Json.emit ts (Json.emit us r) = Json.emit (ts ++ us) r.
Proof. destruct r; simpl; [by rewrite app_assoc | done]. Qed.

Lemma lex_from_cons m c rest m' ts :
  Json.lex_step m c = Some (m', ts) ->
  Json.lex_from m (c :: rest) = Json.emit ts (Json.lex_from m' rest).
Proof. intros H. simpl. by rewrite H. Qed.

Lemma hex_value_digit n : n < 16 -> Json.hex_value (Json.hex_digit n) = Some n.
Proof.
  intros H. unfold Json.hex_value, Json.hex_digit.
  destruct (n <? 10) eqn:E.
  - apply N.ltb_lt in E.
    replace ((48 <=? 48 + n) && (48 + n <=? 57)) with true
      by (symmetry; apply andb_true_iff; split; apply N.leb_le; lia).
    f_equal. lia.
  - apply N.ltb_ge in E.
    replace ((48 <=? 87 + n) && (87 + n <=? 57)) with false
      by (symmetry; apply andb_false_iff; right; apply N.leb_gt; lia).
    replace ((97 <=? 87 + n) && (87 + n <=? 102)) with true
      by (symmetry; apply andb_true_iff; split; apply N.leb_le; lia).
    f_equal. lia.
Qed.

Lemma hex4_value c :
  c < 65536 ->
  (((0 * 16 + c / 4096 mod 16) * 16 + c / 256 mod 16) * 16 + c / 16 mod 16) * 16 + c mod 16 = c.
Proof.
  intros H.
  assert (E256 : c / 256 = c / 16 / 16) by (rewrite N.Div0.div_div; reflexivity).
  assert (E4096 : c / 4096 = c / 256 / 16) by (rewrite N.Div0.div_div; reflexivity).
  pose proof (N.div_mod c 16 ltac:(lia)) as E1.
  pose proof (N.div_mod (c / 16) 16 ltac:(lia)) as E2.
  pose proof (N.div_mod (c / 256) 16 ltac:(lia)) as E3.
  rewrite <- E256 in E2. rewrite <- E4096 in E3.
  assert (H1 : c / 4096 mod 16 = c / 4096).
  { apply N.mod_small. apply N.Div0.div_lt_upper_bound. lia. }
  rewrite H1.
  generalize dependent (c / 4096). generalize dependent (c / 256).
  generalize dependent (c / 16). intros. lia.
Qed.

(** The scanner reads an escape [\uXXXX] back as the code unit. *)
Lemma lex_unicode_escape c acc tail :
  c < 65536 ->
  Json.lex_from (Json.LStr acc) (Json.unicode_escape c ++ tail) =
  Json.lex_from (Json.LStr (c :: acc)) tail.
Proof.
  intros H. unfold Json.unicode_escape, Json.hex4.
  cbn [app].
  rewrite (lex_from_cons _ 92 _ (Json.LEsc acc) []) by reflexivity.
  rewrite (lex_from_cons _ 117 _ (Json.LHex acc 4 0) []) by reflexivity.
  assert (Hd : forall n, n mod 16 < 16) by (intros n; apply N.mod_lt; lia).
  rewrite (lex_from_cons _ _ _ (Json.LHex acc 3 (0 * 16 + c / 4096 mod 16)) [])
    by (cbn [Json.lex_step]; by rewrite hex_value_digit).
  rewrite (lex_from_cons _ _ _
             (Json.LHex acc 2 ((0 * 16 + c / 4096 mod 16) * 16 + c / 256 mod 16)) [])
    by (cbn [Json.lex_step]; by rewrite hex_value_digit).
  rewrite (lex_from_cons _ _ _
             (Json.LHex acc 1 (((0 * 16 + c / 4096 mod 16) * 16 + c / 256 mod 16) * 16
                               + c / 16 mod 16)) [])
    by (cbn [Json.lex_step]; by rewrite hex_value_digit).
  rewrite (lex_from_cons _ _ _ (Json.LStr (c :: acc)) []).
  - by rewrite !emit_nil.
  - cbn [Json.lex_step]. rewrite hex_value_digit by done. by rewrite hex4_value.
Qed.

Ltac lex_escape :=
  cbn [app];
  erewrite lex_from_cons by reflexivity;
  erewrite lex_from_cons by reflexivity;
  rewrite !emit_nil; reflexivity.

(** The scanner reads the quoted form of a code unit back as that unit. *)
Lemma lex_quote_unit paired c acc tail :
  Json.lex_from (Json.LStr acc) (Json.quote_unit paired c ++ tail) =
  Json.lex_from (Json.LStr (c :: acc)) tail.
Proof.
  unfold Json.quote_unit.
  destruct (c =? 8) eqn:E8; [apply N.eqb_eq in E8 as ->; lex_escape|].
  destruct (c =? 9) eqn:E9; [apply N.eqb_eq in E9 as ->; lex_escape|].
  destruct (c =? 10) eqn:E10; [apply N.eqb_eq in E10 as ->; lex_escape|].
  destruct (c =? 12) eqn:E12; [apply N.eqb_eq in E12 as ->; lex_escape|].
  destruct (c =? 13) eqn:E13; [apply N.eqb_eq in E13 as ->; lex_escape|].
  destruct (c =? 34) eqn:E34; [apply N.eqb_eq in E34 as ->; lex_escape|].
  destruct (c =? 92) eqn:E92; [apply N.eqb_eq in E92 as ->; lex_escape|].
  destruct ((c <? 32) || _) eqn:Eesc.
  - apply lex_unicode_escape.
    apply orb_true_iff in Eesc as [Hlt | Hs].
    + apply N.ltb_lt in Hlt. lia.
    + apply andb_true_iff in Hs as [Hs _].
      unfold Json.is_high_surrogate, Json.is_low_surrogate in Hs.
      apply orb_true_iff in Hs as [Hs | Hs]; apply andb_true_iff in Hs as [_ Hs];
        apply N.leb_le in Hs; lia.
  - apply orb_false_iff in Eesc as [Hlt _].
    cbn [app]. rewrite (lex_from_cons _ c _ (Json.LStr (c :: acc)) []).
    + by rewrite emit_nil.
    + cbn [Json.lex_step]. by rewrite E34, E92, Hlt.
Qed.

Lemma lex_quote_units s :
  forall prev acc rest,
    Json.lex_from (Json.LStr acc) (Json.quote_units prev s ++ 34 :: rest) =
    Json.emit [Json.TString (rev acc ++ s)] (Json.lex_from Json.LIdle rest).
Proof.
  induction s as [|c s IH]; intros prev acc rest.
  - cbn [Json.quote_units app].
    rewrite (lex_from_cons _ 34 _ Json.LIdle [Json.TString (rev acc)]) by reflexivity.
    by rewrite app_nil_r.
  - cbn [Json.quote_units]. rewrite <- app_assoc, lex_quote_unit, IH.
    cbn [rev]. by rewrite <- app_assoc.
Qed.

Ltac lex_fixed_text :=
  match goal with |- context [Json.print_token ?t] =>
    let text := eval vm_compute in (Json.print_token t) in
    change (Json.print_token t) with text
  end;
  cbn [app]; repeat (erewrite lex_from_cons by reflexivity);
  rewrite ?emit_nil; reflexivity.

(** Scanning the text of a token that is not a number yields the token. *)
Lemma lex_print_token t rest :
  Json.is_number_token t = false ->
  Json.lex_from Json.LIdle (Json.print_token t ++ rest) =
  Json.emit [t] (Json.lex_from Json.LIdle rest).
Proof.
  intros Hn. destruct t as [ | | | | | | s | literal | | | ].
  - lex_fixed_text.
  - lex_fixed_text.
  - lex_fixed_text.
  - lex_fixed_text.
  - lex_fixed_text.
  - lex_fixed_text.
  - cbn [Json.print_token]. unfold Json.quote. cbn [app]. rewrite <- app_assoc. cbn [app].
    rewrite (lex_from_cons _ 34 _ (Json.LStr []) []) by reflexivity.
    by rewrite emit_nil, lex_quote_units.
  - discriminate.
  - lex_fixed_text.
  - lex_fixed_text.
  - lex_fixed_text.
Qed.

Lemma lex_print_tokens ts :
  Forall (fun t => Json.is_number_token t = false) ts ->
  Json.lex (List.concat (List.map Json.print_token ts)) = Some ts.
Proof.
  unfold Json.lex. induction 1 as [|t ts Ht _ IH]; [reflexivity|].
  cbn [List.map List.concat]. rewrite lex_print_token by done. by rewrite IH.
Qed.

Example parse_examples :
  Json.parse (str " [true, null, -2.5e+3, {}] ") =
    Normal (Json.JArr [Json.JBool true; Json.JNull; Json.JNum (str "-2.5e+3"); Json.JObj []]) /\
  Json.parse (str "01") = Throw (str "SyntaxError") /\
  Json.parse (str "[1,]") = Throw (str "SyntaxError") /\
  Json.parse (str "tru") = Throw (str "SyntaxError") /\
  Json.parse [] = Throw (str "SyntaxError") /\
  Json.parse ([34; 92] ++ str "u00e9" ++ [92; 110; 34]) = Normal (Json.JStr [233; 10]).
Proof. vm_compute. repeat split. Qed.

Example stringify_example :
  Json.stringify (Json.JArr [Json.JStr [97; 34; 10; 1; 55357; 56832; 56832]; Json.JNull]) =
  [91; 34; 97; 92; 34; 92; 110] ++ [92] ++ str "u0001" ++ [55357; 56832; 92] ++ str "ude00" ++
  [34] ++ str ",null]".
Proof. vm_compute. reflexivity. Qed.

(** ** The persisted blob *)

Lemma Forall_comma_separated (P : Json.token -> Prop) (parts : list (list Json.token)) :
  P Json.TComma -> Forall (Forall P) parts -> Forall P (Json.comma_separated parts).
Proof.
  intros Hc H. destruct H as [|p ps Hp Hps]; [constructor|].
  rewrite comma_separated_cons. apply Forall_app. split; [done|].
  induction Hps as [|q ps Hq _ IH]; [constructor|].
  cbn [List.map List.concat]. apply Forall_app. split; [|done]. by constructor.
Qed.

Lemma students_tokens_no_number students :
  Forall (fun t => Json.is_number_token t = false)
    (Json.tokens_of (storage.students_to_json students)).
Proof.
  unfold storage.students_to_json. cbn [Json.tokens_of].
  constructor; [done|]. apply Forall_app. split; [|by repeat constructor].
  apply Forall_comma_separated; [done|].
  induction students as [|s students IH]; [constructor|].
  cbn [List.map]. constructor; [|done]. by repeat constructor.
Qed.

(** Parsing the serialisation of a collection gives the collection back. *)
Lemma parse_stringify_students students :
  Json.parse (Json.stringify (storage.students_to_json students)) =
  Normal (storage.students_to_json students).
Proof.
  unfold Json.parse, Json.stringify.
  rewrite lex_print_tokens by apply students_tokens_no_number.
  by rewrite parse_from_tokens_of.
Qed.

Lemma student_of_json_to_json s :
  storage.student_of_json (storage.student_to_json s) = Some s.
Proof. destruct s. vm_compute. reflexivity. Qed.

Lemma students_of_json_to_json students :
  storage.students_of_json (storage.students_to_json students) = Some students.
Proof.
  unfold storage.students_of_json, storage.students_to_json.
  induction students as [|s students IH]; [reflexivity|].
  cbn [List.map storage.students_of_items]. by rewrite student_of_json_to_json, IH.
Qed.

Lemma stringify_students_truthy students :
  truthy (Json.stringify (storage.students_to_json students)) = true.
Proof. reflexivity. Qed.

Lemma saveStudents_accepted students h :
  (storage_size (<[storage.STORAGE_KEY :=
      Json.stringify (storage.students_to_json students)]> (localStorage h)) <= quota h)%nat ->
  storage.saveStudents students h =
  (Normal tt,
   mkHost (<[storage.STORAGE_KEY :=
             Json.stringify (storage.students_to_json students)]> (localStorage h))
     (quota h) (console h)).
Proof.
  intros H. unfold storage.saveStudents, try_catch, setItem. by rewrite decide_True.
Qed.

Lemma saveStudents_refused students h :
  ~ (storage_size (<[storage.STORAGE_KEY :=
       Json.stringify (storage.students_to_json students)]> (localStorage h)) <= quota h)%nat ->
  storage.saveStudents students h =
  (Normal tt,
   mkHost (localStorage h) (quota h)
     (console h ++ [str "Error saving students to storage:" ++ str " " ++
                    str "QuotaExceededError"])).
Proof.
  intros H. unfold storage.saveStudents, try_catch, setItem. by rewrite decide_False.
Qed.

Lemma getStoredStudents_cases h :
  match localStorage h !! storage.STORAGE_KEY with
  | None => storage.getStoredStudents h = (Normal (Json.JArr []), h)
  | Some text =>
      if truthy text then
        match Json.parse text with
        | Normal v => storage.getStoredStudents h = (Normal v, h)
        | Throw exn =>
            storage.getStoredStudents h =
            (Normal (Json.JArr []),
             mkHost (localStorage h) (quota h)
               (console h ++
                [str "Error retrieving students from storage:" ++ str " " ++ exn]))
        end
      else storage.getStoredStudents h = (Normal (Json.JArr []), h)
  end.
Proof.
  unfold storage.getStoredStudents, try_catch, eff_bind, getItem.
  destruct (localStorage h !! storage.STORAGE_KEY) as [text|]; [|reflexivity].
  destruct (truthy text); [|reflexivity].
  unfold lift. destruct (Json.parse text); reflexivity.
Qed.

(** C7 (as amended).  For every state of the persisted blob, [load] returns
    to its caller and never raises.  When the blob is absent or is the empty
    string it returns the empty sequence and logs nothing; when the text of
    the blob is not JSON it returns the empty sequence and logs the error;
    otherwise it returns the parsed value as it is, without a check that the
    value is a sequence of records. *)
Theorem load_never_raises (h : Host) :
  (exists v, fst (storage.getStoredStudents h) = Normal v) /\
  match localStorage h !! storage.STORAGE_KEY with
  | None => storage.getStoredStudents h = (Normal (Json.JArr []), h)
  | Some text =>
      if truthy text then
        match Json.parse text with
        | Normal v => storage.getStoredStudents h = (Normal v, h)
        | Throw exn =>
            storage.getStoredStudents h =
            (Normal (Json.JArr []),
             mkHost (localStorage h) (quota h)
               (console h ++
                [str "Error retrieving students from storage:" ++ str " " ++ exn]))
        end
      else storage.getStoredStudents h = (Normal (Json.JArr []), h)
  end.
Proof.
  pose proof (getStoredStudents_cases h) as H. split; [|exact H].
  destruct (localStorage h !! storage.STORAGE_KEY) as [text|].
  - destruct (truthy text).
    + destruct (Json.parse text) as [v|exn]; rewrite H; eauto.
    + rewrite H. eauto.
  - rewrite H. eauto.
Qed.

(** Counterexample to C7 as stated: with the blob absent, [load] returns the empty
    sequence and the console stays as it was. *)
Lemma load_absent_logs_nothing :
  localStorage host0 !! storage.STORAGE_KEY = None /\
  fst (storage.getStoredStudents host0) = Normal (Json.JArr []) /\
  console (snd (storage.getStoredStudents host0)) = console host0.
Proof. repeat split. Qed.

(** A blob that is JSON but not an array comes back as it is. *)
Example load_returns_parsed_value_unchecked :
  let h := mkHost {[ storage.STORAGE_KEY := str "null" ]} 5000 [] in
  storage.getStoredStudents h = (Normal Json.JNull, h) /\
  storage.students_of_json Json.JNull = None.
Proof. split; reflexivity. Qed.

(** A blob that is not JSON is logged and read as the empty sequence. *)
Example load_corrupt_blob :
  let h := mkHost {[ storage.STORAGE_KEY := str "[{oops" ]} 5000 [] in
  fst (storage.getStoredStudents h) = Normal (Json.JArr []) /\
  console (snd (storage.getStoredStudents h)) =
  [str "Error retrieving students from storage: SyntaxError"].
Proof. split; reflexivity. Qed.

(** C8 (as amended).  For every collection of student records whose
    serialisation the storage area accepts, [save] followed by [load] gives
    back the collection, record by record and field by field, the date
    strings included, and logs nothing. *)
Theorem save_then_load_round_trip (students : list Student) (h : Host) :
  (storage_size (<[storage.STORAGE_KEY :=
      Json.stringify (storage.students_to_json students)]> (localStorage h)) <= quota h)%nat ->
  let h1 := snd (storage.saveStudents students h) in
  storage.getStoredStudents h1 = (Normal (storage.students_to_json students), h1) /\
  storage.students_of_json (storage.students_to_json students) = Some students /\
  console h1 = console h.
Proof.
  intros Hfit. cbn zeta. rewrite saveStudents_accepted by done. cbn [snd].
  split; [|split; [apply students_of_json_to_json | reflexivity]].
  pose proof (getStoredStudents_cases
    (mkHost (<[storage.STORAGE_KEY :=
               Json.stringify (storage.students_to_json students)]> (localStorage h))
       (quota h) (console h))) as H.
  cbn [localStorage] in H. rewrite lookup_insert_eq in H.
  rewrite stringify_students_truthy, parse_stringify_students in H. exact H.
Qed.

(** Counterexample to C8 as stated: when the storage area is full, [save] logs
    the error and [load] returns what was stored before. *)
Lemma save_refused_load_differs :
  let h1 := snd (storage.saveStudents [ann] full_host) in
  fst (storage.getStoredStudents h1) = Normal (storage.students_to_json []) /\
  storage.students_to_json [] <> storage.students_to_json [ann] /\
  console h1 = [str "Error saving students to storage: QuotaExceededError"].
Proof. repeat split. vm_compute. discriminate. Qed.

(** ** Concrete instances *)

(** Counterexample to C3 as stated: a record whose enrollment date is the empty
    string gets a date when it is updated. *)
Lemma update_dates_an_undated_record :
  useStudents.students (App.studentsHook (App.app page_edit_undated)) !! 1%nat
    = Some undated /\
  exists p' r,
    fst (App.submit_form toLowerCaseASCII draws0 page_edit_undated host0) = Normal p' /\
    useStudents.students (App.studentsHook (App.app p')) !! 1%nat = Some r /\
    dateEnrolled r = StudentForm.now_toISOString draws0 /\
    dateEnrolled r <> dateEnrolled undated.
Proof.
  split; [reflexivity|].
  eexists _, _. split; [vm_compute; reflexivity|].
  split; [reflexivity|]. split; [reflexivity|]. vm_compute. discriminate.
Qed.

Lemma update_keeps_enrollment_date_witness :
  App.editingStudent (App.app page_edit_bob) = Some bob /\
  useStudents.students (App.studentsHook (App.app page_edit_bob)) !! 1%nat = Some bob /\
  dateEnrolled bob <> [] /\
  exists p' r,
    fst (App.submit_form toLowerCaseASCII draws0 page_edit_bob host0) = Normal p' /\
    useStudents.students (App.studentsHook (App.app p')) !! 1%nat = Some r /\
    dateEnrolled r = dateEnrolled bob /\
    r = mkStudent (id bob) (str "Cy Doe") (str "cy@doe.io") (str "HTML Basics")
          (StudentForm.placeholder draws0) (dateEnrolled bob).
Proof.
  assert (Hd : dateEnrolled bob <> []) by (vm_compute; discriminate).
  assert (Hid : id bob <> []) by (vm_compute; discriminate).
  repeat (split; [first [reflexivity | exact Hd]|]).
  destruct (update_keeps_enrollment_date toLowerCaseASCII draws0 page_edit_bob
              bob 1%nat host0 eq_refl eq_refl Hd)
    as (p' & r & H1 & H2 & H3 & H4).
  exists p', r. split; [exact H1|]. split; [exact H2|]. split; [exact H3|].
  apply (H4 (open_form valid_draft) eq_refl eq_refl eq_refl Hid).
Defined.

Lemma invalid_draft_changes_nothing_witness :
  App.form page_add_invalid = Some (open_form invalid_draft) /\
  StudentForm.isSubmitting (open_form invalid_draft) = false /\
  snd (StudentForm.validateForm (StudentForm.formData (open_form invalid_draft))) = false /\
  App.submit_form toLowerCaseASCII draws0 page_add_invalid host0 =
  (Normal (App.mkPage (App.app page_add_invalid)
             (Some (StudentForm.mkState invalid_draft
                      (fst (StudentForm.validateForm invalid_draft)) false))), host0) /\
  fst (StudentForm.validateForm invalid_draft) =
  mkFormErrors (Some msg_name_short) (Some msg_email_invalid) (Some msg_course_required).
Proof.
  split; [reflexivity|]. split; [reflexivity|]. split; [reflexivity|].
  destruct (invalid_draft_changes_nothing toLowerCaseASCII draws0 page_add_invalid
              (open_form invalid_draft) host0 eq_refl eq_refl eq_refl) as [H _].
  split; [exact H | reflexivity].
Defined.

Lemma padded_email_is_rejected_witness :
  StudentForm.form_email padded_draft = [32] ++ str "a@b.com" ++ [] /\
  api.validateEmail (str "a@b.com") = true /\
  Blank [32] /\ Blank [] /\ [32] ++ [] <> [] /\
  err_email (fst (StudentForm.validateForm padded_draft)) = Some msg_email_invalid /\
  snd (StudentForm.validateForm padded_draft) = false.
Proof.
  assert (Hpre : Blank [32]) by (repeat constructor).
  assert (Hpost : Blank []) by constructor.
  assert (Hne : [32] ++ [] <> ([] : jsstring)) by discriminate.
  destruct (padded_email_is_rejected toLowerCaseASCII padded_draft [32] (str "a@b.com") []
              eq_refl eq_refl Hpre Hpost Hne) as (H1 & H2 & _).
  repeat (split; [first [reflexivity | assumption]|]). exact H2.
Defined.

Lemma save_then_load_round_trip_witness :
  (storage_size (<[storage.STORAGE_KEY :=
      Json.stringify (storage.students_to_json [ann; bob])]> (localStorage host0))
   <= quota host0)%nat /\
  storage.getStoredStudents (snd (storage.saveStudents [ann; bob] host0)) =
    (Normal (storage.students_to_json [ann; bob]),
     snd (storage.saveStudents [ann; bob] host0)) /\
  storage.students_of_json (storage.students_to_json [ann; bob]) = Some [ann; bob].
Proof.
  assert (Hfit : (storage_size (<[storage.STORAGE_KEY :=
      Json.stringify (storage.students_to_json [ann; bob])]> (localStorage host0))
   <= quota host0)%nat) by (vm_compute; lia).
  destruct (save_then_load_round_trip [ann; bob] host0 Hfit) as (H1 & H2 & _).
  split; [exact Hfit|]. split; [exact H1 | exact H2].
Defined.

(** Counterexample to C5 as stated: [a@@b.com] has the shape local [@] domain
    [.] tld with three non-empty segments without whitespace, and is flagged
    "invalid format" all the same. *)
Lemma second_at_is_rejected :
  let fd := StudentForm.mkFormData (str "Ann") (str "a@@b.com") (str "CSS Mastery") [] in
  trim (StudentForm.form_email fd) <> [] /\
  address_shape worded_segment (StudentForm.form_email fd) /\
  err_email (fst (StudentForm.validateForm fd)) = Some msg_email_invalid.
Proof.
  cbn zeta. split; [vm_compute; discriminate|]. split; [|reflexivity].
  exists (str "a@"), (str "b"), (str "com"). split; [reflexivity|].
  repeat split; try (vm_compute; discriminate); repeat constructor.
Qed.

(** * Further properties *)

(** ** The collection under add, update and remove *)

Lemma replace_by_id_ids u prev : ids (replace_by_id u prev) = ids prev.
Proof.
  unfold ids, replace_by_id. induction prev as [|s prev IH]; simpl; [done|].
  rewrite IH. by destruct (decide (id s = id u)) as [->|_].
Qed.

Lemma remove_by_id_no_match sid prev :
  (forall s, In s prev -> id s <> sid) -> remove_by_id sid prev = prev.
Proof.
  intros H. unfold remove_by_id. induction prev as [|s prev IH]; simpl; [done|].
  rewrite bool_decide_eq_false_2 by (apply H; by left). simpl.
  f_equal. apply IH. intros s' Hs'. apply H. by right.
Qed.

Lemma remove_by_id_Selects sid prev :
  Selects (fun s => id s <> sid) prev (remove_by_id sid prev).
Proof.
  unfold remove_by_id. apply filter_Selects. intros s.
  rewrite negb_true_iff, bool_decide_eq_false. done.
Qed.

Lemma ids_app a b : ids (a ++ b) = ids a ++ ids b.
Proof. unfold ids. apply List.map_app. Qed.

Lemma In_ids s l : In s l -> In (id s) (ids l).
Proof. unfold ids. apply in_map. Qed.

Lemma sublist_ids (a b : list Student) : sublist a b -> sublist (ids a) (ids b).
Proof. unfold ids. induction 1; simpl; by constructor. Qed.

(** X1.  [updateStudent] never changes which ids the collection holds, nor
    their order: the sequence of ids after an update is the sequence before
    it, so the collection keeps its length and ids that were unique stay
    unique. *)
Theorem update_keeps_ids (u : Student) (st : useStudents.State) (h : Host) :
  exists st' h',
    useStudents.updateStudent u st h = (Normal st', h') /\
    ids (useStudents.students st') = ids (useStudents.students st) /\
    length (useStudents.students st') = length (useStudents.students st) /\
    (NoDup (ids (useStudents.students st)) -> NoDup (ids (useStudents.students st'))).
Proof.
  rewrite updateStudent_returns. eexists _, _. split; [reflexivity|].
  cbn [useStudents.students]. rewrite replace_by_id_ids.
  split; [done|]. split; [|done].
  unfold replace_by_id. by rewrite length_map.
Qed.

Lemma replace_by_id_unique u prev i s :
  NoDup (ids prev) -> prev !! i = Some s -> id s = id u ->
  replace_by_id u prev = <[i := u]> prev.
Proof.
  revert i. induction prev as [|s0 prev IH]; intros i Hnd Hi Hid; [by destruct i|].
  unfold ids in Hnd. cbn [List.map] in Hnd. apply NoDup_cons in Hnd as [Hnotin Hnd].
  destruct i as [|i]; cbn in Hi.
  - injection Hi as ->. cbn. rewrite decide_True by done. f_equal.
    apply replace_by_id_no_match. intros s' Hs' E. apply Hnotin.
    rewrite Hid, <- E. apply list_elem_of_In. by apply In_ids.
  - cbn. rewrite decide_False.
    + f_equal. by apply IH.
    + intros E. apply Hnotin. rewrite E, <- Hid.
      apply list_elem_of_In, In_ids. apply list_elem_of_In.
      by eapply list_elem_of_lookup_2.
Qed.

(** X2.  In a collection whose ids are unique, [updateStudent] replaces the
    one record that has the id of the draft, at its position, and leaves
    every other record as it is. *)
Theorem update_replaces_one_record (u s : Student) (i : nat)
    (st : useStudents.State) (h : Host) :
  NoDup (ids (useStudents.students st)) ->
  useStudents.students st !! i = Some s ->
  id s = id u ->
  exists st' h',
    useStudents.updateStudent u st h = (Normal st', h') /\
    useStudents.students st' = <[i := u]> (useStudents.students st) /\
    useStudents.students st' !! i = Some u /\
    (forall j, j <> i -> useStudents.students st' !! j = useStudents.students st !! j).
Proof.
  intros Hnd Hi Hid. rewrite updateStudent_returns. eexists _, _.
  split; [reflexivity|]. cbn [useStudents.students].
  rewrite (replace_by_id_unique u _ i s Hnd Hi Hid).
  split; [done|]. split.
  - apply list_lookup_insert_eq. by eapply lookup_lt_Some.
  - intros j Hj. by apply list_lookup_insert_ne.
Qed.

Lemma update_replaces_one_record_witness :
  NoDup (ids (useStudents.students (useStudents.mkState [ann; bob] false))) /\
  useStudents.students (useStudents.mkState [ann; bob] false) !! 1%nat = Some bob /\
  id bob = id (mkStudent (str "s2") (str "Bobby") (str "b@bob.com") (str "UI/UX Design")
                 (str "q.png") (str "2024-02-01T08:30:00.000Z")) /\
  exists st' h',
    useStudents.updateStudent
      (mkStudent (str "s2") (str "Bobby") (str "b@bob.com") (str "UI/UX Design")
         (str "q.png") (str "2024-02-01T08:30:00.000Z"))
      (useStudents.mkState [ann; bob] false) host0 = (Normal st', h') /\
    useStudents.students st' =
      [ann; mkStudent (str "s2") (str "Bobby") (str "b@bob.com") (str "UI/UX Design")
              (str "q.png") (str "2024-02-01T08:30:00.000Z")].
Proof.
  assert (Hnd : NoDup (ids (useStudents.students (useStudents.mkState [ann; bob] false)))).
  { vm_compute. repeat constructor; rewrite ?list_elem_of_In; simpl; intuition discriminate. }
  split; [exact Hnd|]. split; [reflexivity|]. split; [reflexivity|].
  destruct (update_replaces_one_record
              (mkStudent (str "s2") (str "Bobby") (str "b@bob.com") (str "UI/UX Design")
                 (str "q.png") (str "2024-02-01T08:30:00.000Z"))
              bob 1%nat (useStudents.mkState [ann; bob] false) host0 Hnd eq_refl eq_refl)
    as (st' & h' & H1 & H2 & _).
  exists st', h'. split; [exact H1 | exact H2].
Defined.

Lemma replace_by_id_idempotent u prev :
  replace_by_id u (replace_by_id u prev) = replace_by_id u prev.
Proof.
  unfold replace_by_id. induction prev as [|s prev IH]; simpl; [done|].
  rewrite IH. f_equal.
  destruct (decide (id s = id u)) as [E|E].
  - by rewrite decide_True.
  - by rewrite decide_False.
Qed.

(** X3.  Updating twice with the same record is the same as updating once:
    the second [updateStudent] leaves the collection as the first made it. *)
Theorem update_is_idempotent (u : Student) (st : useStudents.State) (h : Host) :
  exists st1 h1 st2 h2,
    useStudents.updateStudent u st h = (Normal st1, h1) /\
    useStudents.updateStudent u st1 h1 = (Normal st2, h2) /\
    st2 = st1.
Proof.
  rewrite updateStudent_returns. eexists _, _, _, _. split; [reflexivity|].
  rewrite updateStudent_returns. split; [reflexivity|].
  cbn [useStudents.students useStudents.isLoading]. by rewrite replace_by_id_idempotent.
Qed.

Lemma removeStudent_returns sid st h :
  useStudents.removeStudent sid st h =
  (Normal (useStudents.mkState (remove_by_id sid (useStudents.students st))
             (useStudents.isLoading st)),
   snd (useStudents.persist
          (useStudents.mkState (remove_by_id sid (useStudents.students st))
             (useStudents.isLoading st)) h)).
Proof. unfold useStudents.removeStudent. by rewrite setStudents_returns. Qed.

(** X4.  [removeStudent] keeps exactly the records whose id differs from the
    given one, in their order; afterwards no record has that id; and when no
    record had it, the collection is unchanged. *)
Theorem remove_drops_every_record_with_id (sid : jsstring) (st : useStudents.State)
    (h : Host) :
  exists st' h',
    useStudents.removeStudent sid st h = (Normal st', h') /\
    Selects (fun s => id s <> sid) (useStudents.students st) (useStudents.students st') /\
    ~ In sid (ids (useStudents.students st')) /\
    (~ In sid (ids (useStudents.students st)) -> st' = st).
Proof.
  rewrite removeStudent_returns. eexists _, _. split; [reflexivity|].
  cbn [useStudents.students]. pose proof (remove_by_id_Selects sid (useStudents.students st)) as Hsel.
  split; [exact Hsel|]. split.
  - intros Hin. unfold ids in Hin. apply in_map_iff in Hin as (s & Hs & Hin).
    apply (Selects_elem_of _ _ _ s Hsel) in Hin as [_ Hne]. done.
  - intros Hnot. rewrite remove_by_id_no_match; [by destruct st|].
    intros s Hs E. apply Hnot. rewrite <- E. by apply In_ids.
Qed.

Lemma remove_by_id_app sid a b :
  remove_by_id sid (a ++ b) = remove_by_id sid a ++ remove_by_id sid b.
Proof. unfold remove_by_id. apply List.filter_app. Qed.

(** X5.  Adding a record whose id is new to the collection and then removing
    that id gives the collection back. *)
Theorem add_then_remove_round_trip (s : Student) (st : useStudents.State) (h : Host) :
  ~ In (id s) (ids (useStudents.students st)) ->
  exists st1 h1 st2 h2,
    useStudents.addStudent s st h = (Normal st1, h1) /\
    useStudents.removeStudent (id s) st1 h1 = (Normal st2, h2) /\
    st2 = st.
Proof.
  intros Hfresh. rewrite addStudent_returns. eexists _, _, _, _. split; [reflexivity|].
  rewrite removeStudent_returns. split; [reflexivity|].
  cbn [useStudents.students useStudents.isLoading].
  rewrite remove_by_id_app, remove_by_id_no_match.
  - unfold remove_by_id. cbn. rewrite bool_decide_eq_true_2 by done. cbn.
    rewrite app_nil_r. by destruct st.
  - intros s' Hs' E. apply Hfresh. rewrite <- E. by apply In_ids.
Qed.

Lemma add_then_remove_round_trip_witness :
  ~ In (id bob) (ids (useStudents.students (useStudents.mkState [ann] false))) /\
  exists st1 h1 st2 h2,
    useStudents.addStudent bob (useStudents.mkState [ann] false) host0 = (Normal st1, h1) /\
    useStudents.removeStudent (id bob) st1 h1 = (Normal st2, h2) /\
    st2 = useStudents.mkState [ann] false.
Proof.
  assert (H : ~ In (id bob) (ids (useStudents.students (useStudents.mkState [ann] false)))).
  { vm_compute. intros [E | []]. discriminate. }
  split; [exact H|].
  exact (add_then_remove_round_trip bob (useStudents.mkState [ann] false) host0 H).
Defined.

Lemma mutate_returns m st h :
  mutate m st h =
  (Normal (useStudents.mkState (mutated m (useStudents.students st))
             (useStudents.isLoading st)),
   snd (useStudents.persist
          (useStudents.mkState (mutated m (useStudents.students st))
             (useStudents.isLoading st)) h)).
Proof.
  destruct m; cbn [mutate mutated];
    [apply addStudent_returns | apply updateStudent_returns | apply removeStudent_returns].
Qed.

(** X6.  Unique ids are an invariant of the hook: an update and a removal
    always keep them unique, and an addition keeps them unique exactly when
    the id of the new record is not in the collection yet. *)
Theorem mutations_keep_ids_unique (m : Mutation) (st : useStudents.State) (h : Host) :
  NoDup (ids (useStudents.students st)) ->
  exists st' h',
    mutate m st h = (Normal st', h') /\
    (NoDup (ids (useStudents.students st')) <->
     match m with
     | Add s => ~ In (id s) (ids (useStudents.students st))
     | _ => True
     end).
Proof.
  intros Hnd. rewrite mutate_returns. eexists _, _. split; [reflexivity|].
  cbn [useStudents.students]. destruct m as [s|u|sid]; cbn [mutated].
  - rewrite ids_app. cbn. rewrite NoDup_app. split.
    + intros (_ & Hdisj & _) Hin. apply (Hdisj (id s)).
      * by apply list_elem_of_In.
      * by left.
    + intros Hfresh. split; [done|]. split.
      * intros x Hx Hx'. apply list_elem_of_singleton in Hx' as ->.
        by apply list_elem_of_In in Hx.
      * apply NoDup_singleton.
  - by rewrite replace_by_id_ids.
  - split; [done|]. intros _.
    apply (sublist_NoDup _ (ids (useStudents.students st))); [exact Hnd|].
    apply sublist_ids. eapply Selects_sublist. apply remove_by_id_Selects.
Qed.

Lemma mutations_keep_ids_unique_witness :
  NoDup (ids (useStudents.students (useStudents.mkState [ann] false))) /\
  exists st' h',
    mutate (Add bob) (useStudents.mkState [ann] false) host0 = (Normal st', h') /\
    (NoDup (ids (useStudents.students st')) <->
     ~ In (id bob) (ids (useStudents.students (useStudents.mkState [ann] false)))).
Proof.
  assert (Hnd : NoDup (ids (useStudents.students (useStudents.mkState [ann] false)))).
  { vm_compute. repeat constructor. rewrite list_elem_of_In. simpl. tauto. }
  split; [exact Hnd|].
  exact (mutations_keep_ids_unique (Add bob) (useStudents.mkState [ann] false) host0 Hnd).
Defined.

(** ** Memory and storage in step *)

Lemma load_after_accepted_save students h :
  accepts h students ->
  storage.getStoredStudents (snd (storage.saveStudents students h)) =
  (Normal (storage.students_to_json students), snd (storage.saveStudents students h)).
Proof.
  intros Hfit. unfold accepts in Hfit. rewrite saveStudents_accepted by done. cbn [snd].
  pose proof (getStoredStudents_cases
    (mkHost (<[storage.STORAGE_KEY :=
               Json.stringify (storage.students_to_json students)]> (localStorage h))
       (quota h) (console h))) as H.
  cbn [localStorage] in H. rewrite lookup_insert_eq in H.
  by rewrite stringify_students_truthy, parse_stringify_students in H.
Qed.

(** X7.  Once the initial load is over, every mutation of the hook writes
    through: when the storage area accepts the new serialisation, the state
    holds the collection the mutation asks for and a load from storage right
    afterwards returns that same collection. *)
Theorem mutation_writes_through (m : Mutation) (st : useStudents.State) (h : Host) :
  useStudents.isLoading st = false ->
  accepts h (mutated m (useStudents.students st)) ->
  exists st' h',
    mutate m st h = (Normal st', h') /\
    useStudents.students st' = mutated m (useStudents.students st) /\
    storage.getStoredStudents h' =
      (Normal (storage.students_to_json (useStudents.students st')), h') /\
    storage.students_of_json (storage.students_to_json (useStudents.students st')) =
      Some (useStudents.students st').
Proof.
  intros Hl Hfit. rewrite mutate_returns. eexists _, _. split; [reflexivity|].
  cbn [useStudents.students]. split; [done|]. split; [|apply students_of_json_to_json].
  unfold useStudents.persist. cbn [useStudents.isLoading useStudents.students].
  rewrite Hl. cbn [negb andb]. by apply load_after_accepted_save.
Qed.

Lemma mutation_writes_through_witness :
  useStudents.isLoading (useStudents.mkState [ann; bob] false) = false /\
  accepts host0 (mutated (Remove (str "s1")) [ann; bob]) /\
  exists st' h',
    mutate (Remove (str "s1")) (useStudents.mkState [ann; bob] false) host0 = (Normal st', h') /\
    useStudents.students st' = [bob] /\
    storage.getStoredStudents h' = (Normal (storage.students_to_json [bob]), h').
Proof.
  assert (Hfit : accepts host0 (mutated (Remove (str "s1")) [ann; bob]))
    by (vm_compute; lia).
  split; [reflexivity|]. split; [exact Hfit|].
  destruct (mutation_writes_through (Remove (str "s1"))
              (useStudents.mkState [ann; bob] false) host0 eq_refl Hfit)
    as (st' & h' & H1 & H2 & H3 & _).
  exists st', h'. split; [exact H1|]. split; [exact H2|].
  rewrite H2 in H3. exact H3.
Defined.

(** X8.  Until the initial load is over the hook writes nothing: a mutation
    made while [isLoading] holds changes the collection in memory and leaves
    the storage area and the console as they are. *)
Theorem no_write_while_loading (m : Mutation) (st : useStudents.State) (h : Host) :
  useStudents.isLoading st = true ->
  mutate m st h =
  (Normal (useStudents.mkState (mutated m (useStudents.students st)) true), h).
Proof.
  intros Hl. rewrite mutate_returns. unfold useStudents.persist.
  cbn [useStudents.isLoading]. by rewrite Hl.
Qed.

Lemma no_write_while_loading_witness :
  useStudents.isLoading (useStudents.mkState [] true) = true /\
  mutate (Add ann) (useStudents.mkState [] true) host_saved =
  (Normal (useStudents.mkState [ann] true), host_saved).
Proof.
  split; [reflexivity|].
  exact (no_write_while_loading (Add ann) (useStudents.mkState [] true) host_saved eq_refl).
Defined.

(** X9.  [saveStudents] always returns to its caller, touches no other key
    of the storage area and never changes its capacity; a write that the
    area refuses leaves the area as it was and adds one line to the console,
    a write that it accepts logs nothing. *)
Theorem save_is_contained (students : list Student) (h : Host) :
  let h' := snd (storage.saveStudents students h) in
  fst (storage.saveStudents students h) = Normal tt /\
  quota h' = quota h /\
  (forall key, key <> storage.STORAGE_KEY ->
     localStorage h' !! key = localStorage h !! key) /\
  ((accepts h students /\ console h' = console h /\
    localStorage h' !! storage.STORAGE_KEY =
      Some (Json.stringify (storage.students_to_json students))) \/
   (~ accepts h students /\ localStorage h' = localStorage h /\
    console h' = console h ++ [str "Error saving students to storage: QuotaExceededError"])).
Proof.
  cbn zeta. split; [apply saveStudents_returns|].
  assert (Hd : accepts h students \/ ~ accepts h students) by (unfold accepts; lia).
  destruct Hd as [Hfit|Hfull].
  - rewrite (saveStudents_accepted students h Hfit). cbn [snd quota localStorage console].
    split; [done|]. split.
    + intros key Hkey. by rewrite lookup_insert_ne.
    + left. split; [done|]. split; [done|]. apply lookup_insert_eq.
  - rewrite (saveStudents_refused students h Hfull). cbn [snd quota localStorage console].
    split; [done|]. split; [done|]. right. done.
Qed.

Lemma storage_size_insert_same (m : gmap jsstring jsstring) key value :
  m !! key = Some value -> storage_size (<[key := value]> m) = storage_size m.
Proof. intros H. by rewrite insert_id. Qed.

Lemma loadStudents_typed st h students :
  fst (storage.getStoredStudents h) = Normal (storage.students_to_json students) ->
  snd (storage.getStoredStudents h) = h ->
  loadStudents st h =
  (Normal (Some (useStudents.mkState students false)),
   snd (storage.saveStudents students h)).
Proof.
  intros Hv Hh. unfold loadStudents, eff_bind, try_catch.
  destruct (storage.getStoredStudents h) as [c h0] eqn:E. cbn in Hv, Hh. subst c h0.
  cbn [eff_ret]. rewrite students_of_json_to_json.
  unfold useStudents.persist. cbn [useStudents.isLoading useStudents.students negb andb].
  pose proof (saveStudents_returns students h) as Hs.
  change (0 <=? length students)%nat with true. cbn iota.
  destruct (storage.saveStudents students h) as [[[]|e] h1]; cbn in *; [done | discriminate].
Qed.

(** X10.  The load on mount after a save: when the storage area is within
    its capacity and holds what [saveStudents] wrote for a collection, the
    hook ends with that collection and [isLoading] false, and the save that
    follows the load leaves the host exactly as it was. *)
Theorem load_on_mount_restores (students : list Student) (st : useStudents.State) (h : Host) :
  localStorage h !! storage.STORAGE_KEY =
    Some (Json.stringify (storage.students_to_json students)) ->
  (storage_size (localStorage h) <= quota h)%nat ->
  loadStudents st h = (Normal (Some (useStudents.mkState students false)), h).
Proof.
  intros Hblob Hsize.
  pose proof (getStoredStudents_cases h) as Hc. rewrite Hblob in Hc.
  rewrite stringify_students_truthy, parse_stringify_students in Hc.
  rewrite (loadStudents_typed st h students) by (by rewrite Hc).
  f_equal. rewrite saveStudents_accepted.
  - rewrite insert_id by done. by destruct h.
  - by rewrite storage_size_insert_same.
Qed.

Lemma load_on_mount_restores_witness :
  localStorage host_saved !! storage.STORAGE_KEY =
    Some (Json.stringify (storage.students_to_json [ann; bob])) /\
  (storage_size (localStorage host_saved) <= quota host_saved)%nat /\
  loadStudents (useStudents.mkState [] true) host_saved =
  (Normal (Some (useStudents.mkState [ann; bob] false)), host_saved).
Proof.
  assert (Hsize : (storage_size (localStorage host_saved) <= quota host_saved)%nat)
    by (vm_compute; lia).
  split; [reflexivity|]. split; [exact Hsize|].
  exact (load_on_mount_restores [ann; bob] (useStudents.mkState [] true) host_saved
           eq_refl Hsize).
Defined.

Lemma getStoredStudents_keeps_storage h :
  localStorage (snd (storage.getStoredStudents h)) = localStorage h /\
  quota (snd (storage.getStoredStudents h)) = quota h.
Proof.
  pose proof (getStoredStudents_cases h) as Hc.
  destruct (localStorage h !! storage.STORAGE_KEY) as [text|]; [|by rewrite Hc].
  destruct (truthy text); [|by rewrite Hc].
  destruct (Json.parse text); by rewrite Hc.
Qed.

(** X11.  The load on mount on a first visit: with no blob in the storage
    area (or an empty one, or one that is not JSON), the hook ends with the
    empty collection and [isLoading] false, and the save that follows stores
    the text of the empty array when the area has room for it. *)
Theorem load_on_mount_without_blob (st : useStudents.State) (h : Host) :
  match localStorage h !! storage.STORAGE_KEY with
  | None => True
  | Some text => truthy text = false \/ exists exn, Json.parse text = Throw exn
  end ->
  exists h',
    loadStudents st h = (Normal (Some (useStudents.mkState [] false)), h') /\
    (accepts h [] -> localStorage h' !! storage.STORAGE_KEY = Some (str "[]")).
Proof.
  intros Hblob.
  assert (Hv : fst (storage.getStoredStudents h) = Normal (storage.students_to_json [])).
  { pose proof (getStoredStudents_cases h) as Hc.
    destruct (localStorage h !! storage.STORAGE_KEY) as [text|]; [|by rewrite Hc].
    destruct Hblob as [Ht | [exn Hexn]].
    - rewrite Ht in Hc. by rewrite Hc.
    - destruct (truthy text); [|by rewrite Hc]. rewrite Hexn in Hc. by rewrite Hc. }
  destruct (getStoredStudents_keeps_storage h) as [Hls Hq].
  unfold loadStudents, eff_bind, try_catch.
  destruct (storage.getStoredStudents h) as [c h0] eqn:E. cbn [fst snd] in *. subst c.
  cbn [eff_ret]. rewrite students_of_json_to_json.
  unfold useStudents.persist. cbn [useStudents.isLoading useStudents.students negb andb].
  pose proof (saveStudents_returns [] h0) as Hs.
  change (0 <=? length (@nil Student))%nat with true. cbn iota.
  exists (snd (storage.saveStudents [] h0)). split.
  - destruct (storage.saveStudents [] h0) as [[[]|e] h1]; cbn in *; [done | discriminate].
  - intros Hfit. rewrite saveStudents_accepted.
    + cbn [snd localStorage]. by rewrite lookup_insert_eq.
    + unfold accepts in Hfit. by rewrite Hls, Hq.
Qed.

Lemma load_on_mount_without_blob_witness :
  match localStorage host0 !! storage.STORAGE_KEY with
  | None => True
  | Some text => truthy text = false \/ exists exn, Json.parse text = Throw exn
  end /\
  exists h',
    loadStudents (useStudents.mkState [] true) host0 =
      (Normal (Some (useStudents.mkState [] false)), h') /\
    localStorage h' !! storage.STORAGE_KEY = Some (str "[]").
Proof.
  assert (H0 : match localStorage host0 !! storage.STORAGE_KEY with
               | None => True
               | Some text => truthy text = false \/ exists exn, Json.parse text = Throw exn
               end) by exact I.
  split; [exact H0|].
  destruct (load_on_mount_without_blob (useStudents.mkState [] true) host0 H0)
    as (h' & H1 & H2).
  exists h'. split; [exact H1|]. apply H2. vm_compute. lia.
Defined.

(** ** What a submission stores *)

Lemma trimStart_fixed s : trimStart (trimStart s) = trimStart s.
Proof.
  induction s as [|c s IH]; [done|]. simpl.
  destruct (is_whitespace c) eqn:E; [done|]. simpl. by rewrite E.
Qed.

Lemma trimStart_head_not_space s c r :
  trimStart s = c :: r -> is_whitespace c = false.
Proof.
  induction s as [|c0 s IH]; [done|]. simpl.
  destruct (is_whitespace c0) eqn:E; [done|]. intros [= <- _]. done.
Qed.

Lemma trimStart_split s : exists pre, s = pre ++ trimStart s /\ Blank pre.
Proof.
  induction s as [|c s (pre & Hs & Hpre)]; [exists []; split; [done | constructor]|].
  simpl. destruct (is_whitespace c) eqn:E.
  - exists (c :: pre). split; [simpl; by rewrite <- Hs | by constructor].
  - exists []. split; [done | constructor].
Qed.

Lemma trim_idempotent s : trim (trim s) = trim s.
Proof.
  unfold trim, trimEnd.
  set (t := trimStart s). set (u := trimStart (rev t)).
  assert (Hu : trimStart (rev u) = rev u).
  { destruct (rev u) as [|c r] eqn:Er; [done|]. apply trimStart_head.
    destruct (trimStart_split (rev t)) as (pre & Ht & _). fold u in Ht.
    apply (f_equal (@rev N)) in Ht. rewrite rev_involutive, rev_app_distr, Er in Ht.
    apply (trimStart_head_not_space s c (r ++ rev pre)). exact Ht. }
  rewrite Hu, rev_involutive. unfold u. by rewrite trimStart_fixed.
Qed.

Lemma trim_no_space s :
  s <> [] -> Forall (fun c => is_whitespace c = false) s -> trim s = s.
Proof.
  intros Hne H. rewrite <- (app_nil_r s) at 1.
  change (s ++ []) with ([] ++ s ++ []).
  apply trim_surrounded; [constructor | constructor | done | done].
Qed.

Lemma placeholder_not_empty d : StudentForm.placeholder d <> [].
Proof. unfold StudentForm.placeholder. discriminate. Qed.

Section Stored.
Variable toLowerCase : jsstring -> jsstring.

(** X12.  What a valid draft stores: the name is the trimmed name, has at
    least two code units and no whitespace at either end; the email is the
    lower-cased raw email, because a valid email has nothing to trim; the
    course and the profile image are never empty. *)
Theorem valid_draft_is_stored_normalised (student : option Student)
    (fd : StudentForm.FormData) (d : StudentForm.Draws) :
  snd (StudentForm.validateForm fd) = true ->
  let r := StudentForm.studentData toLowerCase student fd d in
  (2 <= length (name r))%nat /\ trim (name r) = name r /\
  trim (StudentForm.form_email fd) = StudentForm.form_email fd /\
  email r = toLowerCase (StudentForm.form_email fd) /\
  enrolledCourse r <> [] /\ profileImage r <> [].
Proof.
  intros Hv. apply validateForm_verdict in Hv as (Hn & He & Hc). cbn zeta.
  cbn [StudentForm.studentData name email enrolledCourse profileImage].
  assert (Htrim : trim (StudentForm.form_email fd) = StudentForm.form_email fd).
  { destruct (email_error_cases fd) as [[_ E] | [(_ & _ & E) | (Hne & Hs & _)]];
      [congruence | congruence |].
    apply trim_no_space; [|by apply address_shape_no_space].
    intros E. apply Hne. by rewrite E. }
  split.
  { destruct (name_error_cases fd) as [[_ E] | [(_ & _ & E) | [Hl _]]];
      [congruence | congruence | exact Hl]. }
  split; [apply trim_idempotent|]. split; [exact Htrim|]. split; [by rewrite Htrim|].
  split.
  { destruct (course_error_cases fd) as [[_ E] | [Hne _]]; [congruence | exact Hne]. }
  destruct (truthy (StudentForm.form_profileImage fd)) eqn:Ep.
  - by apply truthy_true.
  - apply placeholder_not_empty.
Qed.

Lemma studentData_of_mount s d :
  normalised toLowerCase s ->
  StudentForm.studentData toLowerCase (Some s)
    (StudentForm.formData (StudentForm.mount (Some s))) d = s.
Proof.
  intros (Hn & He & Hid & Hp & Hd). apply truthy_true in Hid, Hp, Hd.
  unfold StudentForm.studentData, StudentForm.mount, StudentForm.student_effect.
  cbn [StudentForm.formData StudentForm.form_name StudentForm.form_email
       StudentForm.form_enrolledCourse StudentForm.form_profileImage].
  rewrite Hn, He, Hid, Hp, Hd. by destruct s.
Qed.

Lemma submit_form_students d p h :
  exists p',
    fst (App.submit_form toLowerCase d p h) = Normal p' /\
    (useStudents.students (App.studentsHook (App.app p')) =
       useStudents.students (App.studentsHook (App.app p)) \/
     exists fs,
       App.form p = Some fs /\
       snd (StudentForm.validateForm (StudentForm.formData fs)) = true /\
       App.form p' = None /\
       useStudents.students (App.studentsHook (App.app p')) =
       match App.editingStudent (App.app p) with
       | Some s =>
           replace_by_id
             (StudentForm.studentData toLowerCase (Some s) (StudentForm.formData fs) d)
             (useStudents.students (App.studentsHook (App.app p)))
       | None =>
           useStudents.students (App.studentsHook (App.app p)) ++
           [StudentForm.studentData toLowerCase None (StudentForm.formData fs) d]
       end).
Proof.
  destruct (App.form p) as [fs|] eqn:Hf.
  - destruct (StudentForm.isSubmitting fs) eqn:Hs.
    + exists p. unfold App.submit_form. rewrite Hf, Hs. split; [done | by left].
    + destruct (snd (StudentForm.validateForm (StudentForm.formData fs))) eqn:Hv.
      * destruct (submit_form_valid toLowerCase d p fs h Hf Hs Hv) as (hook & h' & E & Hst).
        eexists. rewrite E. split; [reflexivity|]. right. exists fs.
        cbn [App.app App.studentsHook App.form]. done.
      * rewrite (submit_form_invalid toLowerCase d p fs h Hf Hs Hv).
        eexists. split; [reflexivity | by left].
  - exists p. unfold App.submit_form. rewrite Hf. split; [done | by left].
Qed.

(** X13.  Opening the edit form of a record and submitting it untouched
    changes nothing in the collection, provided the ids of the collection
    are unique and the record is a normalised one that passes validation. *)
Theorem edit_without_change_is_identity (d : StudentForm.Draws) (p : App.Page)
    (s : Student) (i : nat) (h : Host) :
  App.form p = None ->
  useStudents.isLoading (App.studentsHook (App.app p)) = false ->
  NoDup (ids (useStudents.students (App.studentsHook (App.app p)))) ->
  useStudents.students (App.studentsHook (App.app p)) !! i = Some s ->
  normalised toLowerCase s ->
  snd (StudentForm.validateForm
         (StudentForm.mkFormData (name s) (email s) (enrolledCourse s) (profileImage s)))
    = true ->
  exists p',
    fst (App.submit_form toLowerCase d (App.click_EditStudent s p) h) = Normal p' /\
    useStudents.students (App.studentsHook (App.app p')) =
    useStudents.students (App.studentsHook (App.app p)) /\
    App.form p' = None.
Proof.
  intros Hf Hl Hnd Hi Hnorm Hv.
  assert (Hp : App.click_EditStudent s p =
               App.mkPage (App.handleEditStudent s (App.app p))
                 (Some (StudentForm.mount (Some s)))).
  { unfold App.click_EditStudent. rewrite Hl, Hf. reflexivity. }
  rewrite Hp.
  destruct (submit_form_valid toLowerCase d
              (App.mkPage (App.handleEditStudent s (App.app p))
                 (Some (StudentForm.mount (Some s))))
              (StudentForm.mount (Some s)) h eq_refl eq_refl Hv)
    as (hook & h' & E & Hst).
  eexists. rewrite E. split; [reflexivity|].
  cbn [App.app App.studentsHook App.form]. split; [|done].
  rewrite Hst. cbn [App.app App.editingStudent App.handleEditStudent App.studentsHook].
  rewrite (studentData_of_mount s d Hnorm).
  rewrite (replace_by_id_unique s _ i s Hnd Hi eq_refl).
  by apply list_insert_id.
Qed.

(** X14.  A submission keeps the ids of the collection unique: in edit mode
    always, in add mode whenever the generated id is not in the collection
    yet. *)
Theorem submit_keeps_ids_unique (d : StudentForm.Draws) (p : App.Page) (h : Host) :
  NoDup (ids (useStudents.students (App.studentsHook (App.app p)))) ->
  (App.editingStudent (App.app p) = None ->
   ~ In (StudentForm.generateId d) (ids (useStudents.students (App.studentsHook (App.app p))))) ->
  exists p',
    fst (App.submit_form toLowerCase d p h) = Normal p' /\
    NoDup (ids (useStudents.students (App.studentsHook (App.app p')))).
Proof.
  intros Hnd Hfresh.
  destruct (submit_form_students d p h) as (p' & E & [Hsame | (fs & _ & _ & _ & Hst)]);
    exists p'; (split; [exact E|]).
  - by rewrite Hsame.
  - rewrite Hst. destruct (App.editingStudent (App.app p)) as [s|].
    + by rewrite replace_by_id_ids.
    + rewrite ids_app. cbn. apply NoDup_app. split; [done|]. split.
      * intros x Hx Hx'. apply list_elem_of_singleton in Hx' as ->.
        apply list_elem_of_In in Hx. by apply Hfresh.
      * apply NoDup_singleton.
Qed.

(** X15.  After a valid draft has been submitted from the add form, the
    search shows the new record last: for every term the result is the
    result on the old collection followed by the result on the new record
    alone, and for the empty term it is the old collection followed by the
    new record, whose id and enrollment date are the ones drawn for this
    submission. *)
Theorem added_record_shows_in_search (d : StudentForm.Draws) (p : App.Page)
    (fs : StudentForm.State) (h : Host) :
  App.form p = Some fs ->
  StudentForm.isSubmitting fs = false ->
  App.editingStudent (App.app p) = None ->
  snd (StudentForm.validateForm (StudentForm.formData fs)) = true ->
  exists p' r,
    fst (App.submit_form toLowerCase d p h) = Normal p' /\
    id r = StudentForm.generateId d /\
    dateEnrolled r = StudentForm.now_toISOString d /\
    StudentList.filteredStudents toLowerCase
      (useStudents.students (App.studentsHook (App.app p'))) [] =
    useStudents.students (App.studentsHook (App.app p)) ++ [r] /\
    (forall term,
       StudentList.filteredStudents toLowerCase
         (useStudents.students (App.studentsHook (App.app p'))) term =
       StudentList.filteredStudents toLowerCase
         (useStudents.students (App.studentsHook (App.app p))) term ++
       StudentList.filteredStudents toLowerCase [r] term).
Proof.
  intros Hf Hs He Hv.
  destruct (submit_form_valid toLowerCase d p fs h Hf Hs Hv) as (hook & h' & E & Hst).
  rewrite He in Hst.
  eexists _, (StudentForm.studentData toLowerCase None (StudentForm.formData fs) d).
  rewrite E. split; [reflexivity|]. cbn [App.app App.studentsHook].
  split; [reflexivity|]. split; [reflexivity|]. rewrite Hst. split; [reflexivity|].
  intros term. unfold StudentList.filteredStudents.
  destruct (negb (truthy (trim term))); [done|]. apply List.filter_app.
Qed.
End Stored.

Lemma edit_without_change_is_identity_witness :
  App.form page_list = None /\
  useStudents.isLoading (App.studentsHook (App.app page_list)) = false /\
  NoDup (ids (useStudents.students (App.studentsHook (App.app page_list)))) /\
  useStudents.students (App.studentsHook (App.app page_list)) !! 1%nat = Some bob /\
  normalised toLowerCaseASCII bob /\
  snd (StudentForm.validateForm
         (StudentForm.mkFormData (name bob) (email bob) (enrolledCourse bob)
            (profileImage bob))) = true /\
  exists p',
    fst (App.submit_form toLowerCaseASCII draws0 (App.click_EditStudent bob page_list) host0)
      = Normal p' /\
    useStudents.students (App.studentsHook (App.app p')) = [ann; bob].
Proof.
  assert (Hnd : NoDup (ids (useStudents.students (App.studentsHook (App.app page_list))))).
  { vm_compute. repeat constructor; rewrite ?list_elem_of_In; simpl; intuition discriminate. }
  assert (Hnorm : normalised toLowerCaseASCII bob).
  { repeat split; try reflexivity; vm_compute; discriminate. }
  split; [reflexivity|]. split; [reflexivity|]. split; [exact Hnd|].
  split; [reflexivity|]. split; [exact Hnorm|]. split; [reflexivity|].
  destruct (edit_without_change_is_identity toLowerCaseASCII draws0 page_list bob 1%nat host0
              eq_refl eq_refl Hnd eq_refl Hnorm eq_refl) as (p' & H1 & H2 & _).
  exists p'. split; [exact H1 | exact H2].
Defined.

Lemma valid_draft_is_stored_normalised_witness :
  snd (StudentForm.validateForm valid_draft) = true /\
  StudentForm.studentData toLowerCaseASCII None valid_draft draws0 =
    mkStudent (str "lq1x2y3z") (str "Cy Doe") (str "cy@doe.io") (str "HTML Basics")
      (StudentForm.placeholder draws0) (str "2025-03-04T05:06:07.008Z") /\
  trim (StudentForm.form_email valid_draft) = StudentForm.form_email valid_draft /\
  profileImage (StudentForm.studentData toLowerCaseASCII None valid_draft draws0) <> [].
Proof.
  destruct (valid_draft_is_stored_normalised toLowerCaseASCII None valid_draft draws0 eq_refl)
    as (_ & _ & H3 & _ & _ & H6).
  split; [reflexivity|]. split; [reflexivity|]. split; [exact H3 | exact H6].
Defined.

Lemma submit_keeps_ids_unique_witness :
  NoDup (ids (useStudents.students (App.studentsHook (App.app page_add_failed)))) /\
  (App.editingStudent (App.app page_add_failed) = None ->
   ~ In (StudentForm.generateId draws0)
       (ids (useStudents.students (App.studentsHook (App.app page_add_failed))))) /\
  exists p',
    fst (App.submit_form toLowerCaseASCII draws0 page_add_failed host0) = Normal p' /\
    NoDup (ids (useStudents.students (App.studentsHook (App.app p')))).
Proof.
  assert (Hnd : NoDup (ids (useStudents.students (App.studentsHook (App.app page_add_failed))))).
  { vm_compute. repeat constructor. rewrite list_elem_of_In. simpl. tauto. }
  assert (Hfresh : App.editingStudent (App.app page_add_failed) = None ->
            ~ In (StudentForm.generateId draws0)
                (ids (useStudents.students (App.studentsHook (App.app page_add_failed))))).
  { intros _. vm_compute. intros [E | []]. discriminate. }
  split; [exact Hnd|]. split; [exact Hfresh|].
  exact (submit_keeps_ids_unique toLowerCaseASCII draws0 page_add_failed host0 Hnd Hfresh).
Defined.

Lemma added_record_shows_in_search_witness :
  App.form page_add_failed = Some (open_form valid_draft) /\
  StudentForm.isSubmitting (open_form valid_draft) = false /\
  App.editingStudent (App.app page_add_failed) = None /\
  snd (StudentForm.validateForm (StudentForm.formData (open_form valid_draft))) = true /\
  exists p' r,
    fst (App.submit_form toLowerCaseASCII draws0 page_add_failed host0) = Normal p' /\
    id r = StudentForm.generateId draws0 /\
    StudentList.filteredStudents toLowerCaseASCII
      (useStudents.students (App.studentsHook (App.app p'))) [] = [ann] ++ [r].
Proof.
  split; [reflexivity|]. split; [reflexivity|]. split; [reflexivity|]. split; [reflexivity|].
  destruct (added_record_shows_in_search toLowerCaseASCII draws0 page_add_failed
              (open_form valid_draft) host0 eq_refl eq_refl eq_refl eq_refl)
    as (p' & r & H1 & H2 & _ & H4 & _).
  exists p', r. split; [exact H1|]. split; [exact H2 | exact H4].
Defined.

(** ** Addresses that [validateEmail] accepts *)

Lemma count_at_segment s : segment s -> count_occ N.eq_dec s 64 = 0%nat.
Proof.
  intros Hs. apply count_occ_not_In. by apply segment_no_at.
Qed.

(** X16.  An address that [validateEmail] accepts has exactly one [@], no
    whitespace anywhere and at least five code units, and a dot after the
    [@] that is neither the first nor the last code unit of that part. *)
Theorem accepted_email_has_one_at (e : jsstring) :
  api.validateEmail e = true ->
  count_occ N.eq_dec e 64 = 1%nat /\
  Forall (fun c => is_whitespace c = false) e /\
  (5 <= length e)%nat /\
  exists l d t, e = l ++ [64] ++ d ++ [46] ++ t /\ l <> [] /\ d <> [] /\ t <> [].
Proof.
  intros Hv. apply validateEmail_spec in Hv.
  split; [|split; [by apply address_shape_no_space|]].
  - destruct Hv as (l & d & t & -> & Hl & Hd & Ht).
    rewrite !count_occ_app, (count_at_segment l Hl), (count_at_segment d Hd),
      (count_at_segment t Ht). reflexivity.
  - destruct Hv as (l & d & t & -> & [Hl _] & [Hd _] & [Ht _]). split.
    + rewrite !length_app. cbn [length].
      destruct l, d, t; try done. cbn [length]. lia.
    + by exists l, d, t.
Qed.

Lemma accepted_email_has_one_at_witness :
  api.validateEmail (str "first.last@mail.example.org") = true /\
  count_occ N.eq_dec (str "first.last@mail.example.org") 64 = 1%nat /\
  (5 <= length (str "first.last@mail.example.org"))%nat.
Proof.
  destruct (accepted_email_has_one_at (str "first.last@mail.example.org") eq_refl)
    as (H1 & _ & H3 & _).
  split; [reflexivity|]. split; [exact H1 | exact H3].
Defined.

(** ** The search view *)

Section SearchView.
Variable toLowerCase : jsstring -> jsstring.

Lemma filter_fixed {A} (f : A -> bool) (l : list A) :
  List.filter f (List.filter f l) = List.filter f l.
Proof.
  induction l as [|x l IH]; [done|]. simpl.
  destruct (f x) eqn:E; [|done]. simpl. by rewrite E, IH.
Qed.

(** X17.  The search works record by record: the result on a collection
    made of two parts is the result on the first part followed by the result
    on the second; searching within a result with the same term changes
    nothing; and the result is never longer than the collection. *)
Theorem search_is_recordwise (a b : list Student) (term : jsstring) :
  StudentList.filteredStudents toLowerCase (a ++ b) term =
    StudentList.filteredStudents toLowerCase a term ++
    StudentList.filteredStudents toLowerCase b term /\
  StudentList.filteredStudents toLowerCase
    (StudentList.filteredStudents toLowerCase a term) term =
    StudentList.filteredStudents toLowerCase a term /\
  (length (StudentList.filteredStudents toLowerCase a term) <= length a)%nat.
Proof.
  unfold StudentList.filteredStudents.
  destruct (negb (truthy (trim term))).
  - done.
  - split; [apply List.filter_app|]. split; [apply filter_fixed|].
    apply List.filter_length_le.
Qed.
End SearchView.

(** ** Opening and closing the form *)

(** X18.  Cancelling discards the draft: from an open form that is not
    submitting, Cancel closes the form, leaves the student and course hooks
    and the search term as they are, and the add form opened next is blank
    and without errors, whatever had been typed.  While a submission is in
    progress Cancel does nothing. *)
Theorem cancel_discards_the_draft (p : App.Page) (fs : StudentForm.State) :
  App.form p = Some fs ->
  let p1 := App.click_Cancel p in
  if StudentForm.isSubmitting fs then p1 = p
  else
    App.form p1 = None /\
    App.showForm (App.app p1) = false /\
    App.editingStudent (App.app p1) = None /\
    App.studentsHook (App.app p1) = App.studentsHook (App.app p) /\
    App.coursesHook (App.app p1) = App.coursesHook (App.app p) /\
    App.searchTerm (App.app p1) = App.searchTerm (App.app p) /\
    (App.add_button_enabled (App.app p) = true ->
     App.form (App.click_AddStudent p1) =
     Some (StudentForm.mkState (StudentForm.mkFormData [] [] [] [])
             StudentForm.no_errors false)).
Proof.
  intros Hf. cbn zeta. unfold App.click_Cancel. rewrite Hf.
  destruct (StudentForm.isSubmitting fs); [done|].
  cbn [App.form App.app App.handleFormCancel App.showForm App.editingStudent
       App.studentsHook App.coursesHook App.searchTerm App.render].
  repeat (split; [done|]).
  intros Hen. unfold App.click_AddStudent. cbn [App.app].
  change (App.add_button_enabled (App.handleFormCancel (App.app p)))
    with (App.add_button_enabled (App.app p)).
  rewrite Hen. reflexivity.
Qed.

Lemma cancel_discards_the_draft_witness :
  App.form page_add_invalid = Some (open_form invalid_draft) /\
  App.form (App.click_Cancel page_add_invalid) = None /\
  App.form (App.click_AddStudent (App.click_Cancel page_add_invalid)) =
    Some (StudentForm.mkState (StudentForm.mkFormData [] [] [] [])
            StudentForm.no_errors false).
Proof.
  pose proof (cancel_discards_the_draft page_add_invalid (open_form invalid_draft) eq_refl)
    as H.
  cbn zeta in H. change (StudentForm.isSubmitting (open_form invalid_draft)) with false in H.
  cbv iota in H. destruct H as (H1 & _ & _ & _ & _ & _ & H7).
  split; [reflexivity|]. split; [exact H1|]. apply H7. reflexivity.
Defined.

(** ** The life of the course directory *)

Lemma directory_step_settled e st st' :
  directory_settled st -> Directory.step e st = Some st' -> directory_settled st'.
Proof.
  unfold directory_settled, directory. destruct st as [[cs l err] n].
  cbn [Directory.hook Directory.pending useCourses.isLoading useCourses.error
       useCourses.courses].
  intros Hok Hstep. destruct e as [|b].
  - destruct l.
    + destruct Hok as (_ & -> & _). discriminate.
    + destruct err as [m|]; [|discriminate].
      cbn in Hstep. destruct (truthy m); [|discriminate]. injection Hstep as <-.
      destruct Hok as (-> & -> & _). done.
  - destruct n as [|n]; [discriminate|]. cbn in Hstep. injection Hstep as <-.
    destruct l.
    + destruct Hok as ([= ->] & -> & ->). by destruct b.
    + destruct err; destruct Hok as [? _]; discriminate.
Qed.

Lemma directory_run_settled es st st' :
  directory_settled st -> Directory.run es st = Some st' -> directory_settled st'.
Proof.
  revert st. induction es as [|e es IH]; intros st Hok Hrun; cbn in Hrun.
  - by injection Hrun as <-.
  - destruct (Directory.step e st) as [st1|] eqn:E; [|discriminate].
    eapply IH; [|exact Hrun]. by eapply directory_step_settled.
Qed.

Lemma directory_mounted_settled : directory_settled Directory.mounted.
Proof. by repeat split. Qed.

(** X19.  Whatever sequence of retries and responses the page goes through,
    the directory is in one of three shapes: loading, with exactly one
    request out, no error and no course; ready, with the eight courses of
    the service and no request out; or failed, with the message of the
    service, no course and no request out. *)
Theorem directory_is_always_settled (es : list Directory.Event) (st : Directory.State) :
  Directory.run es Directory.mounted = Some st ->
  match directory (Directory.hook st) with
  | Loading =>
      Directory.pending st = 1%nat /\
      useCourses.error (Directory.hook st) = None /\
      useCourses.courses (Directory.hook st) = []
  | Ready courses =>
      Directory.pending st = 0%nat /\ courses = api.mockCourses /\ length courses = 8%nat
  | Failed message =>
      Directory.pending st = 0%nat /\
      useCourses.courses (Directory.hook st) = [] /\
      message = str "Failed to fetch courses from server"
  end.
Proof.
  intros Hrun.
  pose proof (directory_run_settled es _ st directory_mounted_settled Hrun) as Hok.
  unfold directory_settled in Hok.
  destruct (directory (Directory.hook st)); try done.
  destruct Hok as [? ->]. done.
Qed.

Lemma directory_is_always_settled_witness :
  Directory.run [Directory.Resolved true; Directory.Retry; Directory.Resolved false]
    Directory.mounted =
    Some (Directory.mkState (useCourses.mkState api.mockCourses false None) 0) /\
  (0 = 0 /\ api.mockCourses = api.mockCourses /\ length api.mockCourses = 8)%nat.
Proof.
  split; [reflexivity|].
  exact (directory_is_always_settled
           [Directory.Resolved true; Directory.Retry; Directory.Resolved false]
           (Directory.mkState (useCourses.mkState api.mockCourses false None) 0) eq_refl).
Defined.

(** X20.  The moves of the directory: while loading, only a response can
    arrive (no retry is offered); once failed, only a retry is possible, and
    it leads back to loading; once ready, nothing more happens, so courses
    that have loaded stay loaded. *)
Theorem directory_moves (es : list Directory.Event) (st : Directory.State) :
  Directory.run es Directory.mounted = Some st ->
  match directory (Directory.hook st) with
  | Loading =>
      Directory.step Directory.Retry st = None /\
      forall b, exists st',
        Directory.step (Directory.Resolved b) st = Some st' /\
        directory (Directory.hook st') <> Loading
  | Ready _ => forall e, Directory.step e st = None
  | Failed _ =>
      (forall b, Directory.step (Directory.Resolved b) st = None) /\
      exists st',
        Directory.step Directory.Retry st = Some st' /\
        directory (Directory.hook st') = Loading
  end.
Proof.
  intros Hrun.
  pose proof (directory_run_settled es _ st directory_mounted_settled Hrun) as Hok.
  unfold directory_settled, directory in *. destruct st as [[cs l err] n].
  cbn [Directory.hook Directory.pending useCourses.isLoading useCourses.error
       useCourses.courses] in *.
  destruct l.
  - destruct Hok as (-> & -> & ->). split; [done|].
    intros b. eexists. split; [reflexivity|]. by destruct b.
  - destruct err as [m|].
    + destruct Hok as (-> & -> & ->). split; [done|].
      eexists. split; reflexivity.
    + destruct Hok as (-> & ->). by intros [|b].
Qed.

Lemma directory_moves_witness :
  Directory.run [Directory.Resolved false] Directory.mounted =
    Some (Directory.mkState (useCourses.mkState api.mockCourses false None) 0) /\
  forall e,
    Directory.step e (Directory.mkState (useCourses.mkState api.mockCourses false None) 0)
    = None.
Proof.
  split; [reflexivity|].
  exact (directory_moves [Directory.Resolved false]
           (Directory.mkState (useCourses.mkState api.mockCourses false None) 0) eq_refl).
Defined.

(** ** Generated ids *)

Lemma value36_digit36 d : d < 36 -> value36 (digit36 d) = d.
Proof.
  intros H. unfold value36, digit36. destruct (d <? 10) eqn:E.
  - apply N.ltb_lt in E.
    replace ((48 <=? 48 + d) && (48 + d <=? 57)) with true
      by (symmetry; apply andb_true_iff; split; apply N.leb_le; lia).
    lia.
  - apply N.ltb_ge in E.
    replace ((48 <=? 87 + d) && (87 + d <=? 57)) with false
      by (symmetry; apply andb_false_iff; right; apply N.leb_gt; lia).
    lia.
Qed.

Lemma is_digit36_digit36 d : d < 36 -> is_digit36 (digit36 d) = true.
Proof.
  intros H. unfold is_digit36, digit36. destruct (d <? 10) eqn:E.
  - apply N.ltb_lt in E. apply orb_true_iff. left.
    apply andb_true_iff; split; apply N.leb_le; lia.
  - apply N.ltb_ge in E. apply orb_true_iff. right.
    apply andb_true_iff; split; apply N.leb_le; lia.
Qed.

Lemma digits36_parse fuel : forall n acc,
  n < 2 ^ N.of_nat fuel ->
  fold_left (fun v c => v * 36 + value36 c) (digits36 fuel n acc) 0 =
  fold_left (fun v c => v * 36 + value36 c) acc n.
Proof.
  induction fuel as [|fuel IH]; intros n acc Hn.
  - cbn in Hn. assert (n = 0) as -> by lia. reflexivity.
  - cbn [digits36]. destruct (n =? 0) eqn:E.
    + apply N.eqb_eq in E as ->. reflexivity.
    + rewrite IH.
      * cbn [fold_left]. rewrite value36_digit36 by (apply N.mod_lt; lia).
        f_equal. pose proof (N.div_mod n 36 ltac:(lia)). lia.
      * rewrite Nat2N.inj_succ, N.pow_succ_r' in Hn.
        apply N.Div0.div_lt_upper_bound. lia.
Qed.

Lemma digits36_alphabet fuel : forall n acc,
  Forall (fun c => is_digit36 c = true) acc ->
  Forall (fun c => is_digit36 c = true) (digits36 fuel n acc).
Proof.
  induction fuel as [|fuel IH]; intros n acc Hacc; [done|].
  cbn [digits36]. destruct (n =? 0); [done|].
  apply IH. constructor; [|done]. apply is_digit36_digit36. apply N.mod_lt. lia.
Qed.

Lemma parse36_toString36 n : parse36 (toString36 n) = n.
Proof.
  unfold parse36, toString36. destruct (n =? 0) eqn:E.
  - apply N.eqb_eq in E as ->. reflexivity.
  - rewrite digits36_parse; [reflexivity|].
    rewrite N2Nat.id. apply N.size_gt.
Qed.

Lemma toString36_not_empty n : toString36 n <> [].
Proof.
  intros H. pose proof (parse36_toString36 n) as Hp. rewrite H in Hp.
  cbn in Hp. subst n. discriminate.
Qed.

(** X21.  The time part of a generated id is the clock written in base 36:
    it is never empty, uses the digits 0-9 and a-z only and reads back as
    the clock, so a generated id is never the empty string, and two ids
    whose time parts have the same length are equal only when both the
    clock and the random digits are. *)
Theorem generated_id_encodes_the_clock (now : N) (random_digits : jsstring) :
  generateId now random_digits <> [] /\
  Forall (fun c => is_digit36 c = true) (toString36 now) /\
  parse36 (toString36 now) = now /\
  (forall now' random_digits',
     length (toString36 now) = length (toString36 now') ->
     generateId now random_digits = generateId now' random_digits' ->
     now = now' /\ random_digits = random_digits').
Proof.
  split.
  { unfold generateId. intros H. apply app_eq_nil in H as [H _].
    by apply toString36_not_empty in H. }
  split.
  { unfold toString36. destruct (now =? 0); [by repeat constructor|].
    by apply digits36_alphabet. }
  split; [apply parse36_toString36|].
  intros now' r' Hlen Heq. unfold generateId in Heq.
  apply app_inj_1 in Heq as [H1 H2]; [|done]. split; [|done].
  by rewrite <- (parse36_toString36 now), H1, parse36_toString36.
Qed.

(** ** What the list shows *)

Section ListFacts.
Variable toLowerCase : jsstring -> jsstring.

(** X22.  The list shows the grid exactly when the search result is not
    empty, and then the cards are the search result; otherwise it shows the
    empty state.  With a blank term the empty state means that the
    collection itself is empty, and its title is "No students yet" only for
    the empty term: a term of spaces on an empty collection reads "No
    students found". *)
Theorem list_body_follows_search (students : list Student) (term : jsstring) :
  match list_body toLowerCase students term with
  | Grid cards =>
      cards = StudentList.filteredStudents toLowerCase students term /\ cards <> []
  | EmptyState title _ =>
      StudentList.filteredStudents toLowerCase students term = [] /\
      (Blank term -> students = []) /\
      (title = str "No students yet" <-> term = [])
  end.
Proof.
  unfold list_body. cbn zeta.
  destruct (StudentList.filteredStudents toLowerCase students term) as [|s shown] eqn:E.
  - cbn. split; [done|]. split.
    + intros Hb. unfold StudentList.filteredStudents in E.
      apply trim_blank, truthy_false in Hb. by rewrite Hb in E.
    + destruct term as [|c term]; cbn [truthy].
      * done.
      * split; [|done]. intros Heq. vm_compute in Heq. discriminate Heq.
  - cbn. done.
Qed.
End ListFacts.

Example list_body_blank_term_on_empty_collection :
  list_body toLowerCaseASCII [] (str "  ") =
  EmptyState (str "No students found")
    (str "No students match " ++ [34] ++ str "  " ++ [34] ++
     str ". Try adjusting your search.") /\
  list_counter toLowerCaseASCII [ann; bob] (str "bob") = str "1 of 2 students".
Proof. split; reflexivity. Qed.

(** ** A submission reaches the storage *)

Section Persisted.
Variable toLowerCase : jsstring -> jsstring.

Lemma submit_form_valid_host d p fs h :
  App.form p = Some fs -> StudentForm.isSubmitting fs = false ->
  snd (StudentForm.validateForm (StudentForm.formData fs)) = true ->
  let students' :=
    match App.editingStudent (App.app p) with
    | Some s =>
        replace_by_id
          (StudentForm.studentData toLowerCase (Some s) (StudentForm.formData fs) d)
          (useStudents.students (App.studentsHook (App.app p)))
    | None =>
        useStudents.students (App.studentsHook (App.app p)) ++
        [StudentForm.studentData toLowerCase None (StudentForm.formData fs) d]
    end in
  let hook' :=
    useStudents.mkState students' (useStudents.isLoading (App.studentsHook (App.app p))) in
  App.submit_form toLowerCase d p h =
  (Normal (App.mkPage
             (App.mkState hook' (App.coursesHook (App.app p)) false None
                (App.searchTerm (App.app p))) None),
   snd (useStudents.persist hook' h)).
Proof.
  intros Hf Hs Hv. cbn zeta. unfold App.submit_form. rewrite Hf, Hs.
  unfold StudentForm.handleSubmit.
  destruct (StudentForm.validateForm (StudentForm.formData fs)) as [errs ok].
  simpl in Hv. subst ok. cbn [negb].
  unfold eff_bind, try_catch, App.handleFormSubmit, eff_bind.
  destruct (App.editingStudent (App.app p)) as [s|].
  - rewrite updateStudent_returns. reflexivity.
  - rewrite addStudent_returns. reflexivity.
Qed.

(** X23.  A valid submission reaches the storage: once the initial load is
    over and the storage area accepts the new serialisation, the form is
    closed, the page is back in add mode, and a load from storage returns
    exactly the collection now in memory; nothing is logged. *)
Theorem submission_is_persisted (d : StudentForm.Draws) (p : App.Page)
    (fs : StudentForm.State) (h : Host) :
  App.form p = Some fs ->
  StudentForm.isSubmitting fs = false ->
  snd (StudentForm.validateForm (StudentForm.formData fs)) = true ->
  useStudents.isLoading (App.studentsHook (App.app p)) = false ->
  accepts h
    match App.editingStudent (App.app p) with
    | Some s =>
        replace_by_id
          (StudentForm.studentData toLowerCase (Some s) (StudentForm.formData fs) d)
          (useStudents.students (App.studentsHook (App.app p)))
    | None =>
        useStudents.students (App.studentsHook (App.app p)) ++
        [StudentForm.studentData toLowerCase None (StudentForm.formData fs) d]
    end ->
  exists p' h',
    App.submit_form toLowerCase d p h = (Normal p', h') /\
    App.form p' = None /\ App.showForm (App.app p') = false /\
    App.editingStudent (App.app p') = None /\
    storage.getStoredStudents h' =
      (Normal (storage.students_to_json
                 (useStudents.students (App.studentsHook (App.app p')))), h') /\
    console h' = console h.
Proof.
  intros Hf Hs Hv Hl Hfit.
  rewrite (submit_form_valid_host d p fs h Hf Hs Hv). cbn zeta.
  eexists _, _. split; [reflexivity|].
  cbn [App.form App.app App.showForm App.editingStudent App.studentsHook
       useStudents.students].
  split; [done|]. split; [done|]. split; [done|].
  unfold useStudents.persist. cbn [useStudents.isLoading useStudents.students].
  rewrite Hl. cbn [negb andb].
  match goal with |- context [(0 <=? ?n)%nat] => change (0 <=? n)%nat with true end.
  cbn iota. split; [by apply load_after_accepted_save|].
  unfold accepts in Hfit. by rewrite saveStudents_accepted.
Qed.
End Persisted.

Lemma submission_is_persisted_witness :
  App.form page_edit_bob = Some (open_form valid_draft) /\
  StudentForm.isSubmitting (open_form valid_draft) = false /\
  snd (StudentForm.validateForm (StudentForm.formData (open_form valid_draft))) = true /\
  useStudents.isLoading (App.studentsHook (App.app page_edit_bob)) = false /\
  exists p' h',
    App.submit_form toLowerCaseASCII draws0 page_edit_bob host0 = (Normal p', h') /\
    App.form p' = None /\
    storage.getStoredStudents h' =
      (Normal (storage.students_to_json
                 (useStudents.students (App.studentsHook (App.app p')))), h').
Proof.
  split; [reflexivity|]. split; [reflexivity|]. split; [reflexivity|]. split; [reflexivity|].
  assert (Hfit : accepts host0
            (replace_by_id
               (StudentForm.studentData toLowerCaseASCII (Some bob)
                  (StudentForm.formData (open_form valid_draft)) draws0)
               (useStudents.students (App.studentsHook (App.app page_edit_bob)))))
    by (vm_compute; lia).
  destruct (submission_is_persisted toLowerCaseASCII draws0 page_edit_bob
              (open_form valid_draft) host0 eq_refl eq_refl eq_refl eq_refl Hfit)
    as (p' & h' & H1 & H2 & _ & _ & H5 & _).
  exists p', h'. split; [exact H1|]. split; [exact H2 | exact H5].
Defined.

(** ** Sessions of the page *)

Section SessionFacts.
Variable toLowerCase : jsstring -> jsstring.

Lemma submit_form_cases d p h :
  ((forall fs, App.form p = Some fs -> StudentForm.isSubmitting fs = true) /\
   App.submit_form toLowerCase d p h = (Normal p, h)) \/
  (exists fs,
     App.form p = Some fs /\ StudentForm.isSubmitting fs = false /\
     snd (StudentForm.validateForm (StudentForm.formData fs)) = false /\
     App.submit_form toLowerCase d p h =
     (Normal (App.mkPage (App.app p)
                (Some (StudentForm.mkState (StudentForm.formData fs)
                         (fst (StudentForm.validateForm (StudentForm.formData fs)))
                         false))), h)) \/
  (exists fs hook h',
     App.form p = Some fs /\ StudentForm.isSubmitting fs = false /\
     snd (StudentForm.validateForm (StudentForm.formData fs)) = true /\
     App.submit_form toLowerCase d p h =
     (Normal (App.mkPage
                (App.mkState hook (App.coursesHook (App.app p)) false None
                   (App.searchTerm (App.app p))) None), h') /\
     useStudents.students hook =
       match App.editingStudent (App.app p) with
       | Some s =>
           replace_by_id
             (StudentForm.studentData toLowerCase (Some s) (StudentForm.formData fs) d)
             (useStudents.students (App.studentsHook (App.app p)))
       | None =>
           useStudents.students (App.studentsHook (App.app p)) ++
           [StudentForm.studentData toLowerCase None (StudentForm.formData fs) d]
       end).
Proof.
  destruct (App.form p) as [fs|] eqn:Hf.
  - destruct (StudentForm.isSubmitting fs) eqn:Hs.
    + left. split; [by intros fs' [= <-]|]. unfold App.submit_form. by rewrite Hf, Hs.
    + destruct (snd (StudentForm.validateForm (StudentForm.formData fs))) eqn:Hv.
      * right. right.
        destruct (submit_form_valid toLowerCase d p fs h Hf Hs Hv) as (hook & h' & E & Hst).
        by exists fs, hook, h'.
      * right. left. exists fs.
        by rewrite (submit_form_invalid toLowerCase d p fs h Hf Hs Hv).
  - left. split; [done|]. unfold App.submit_form. by rewrite Hf.
Qed.

Lemma render_add_form before st f (courses : list Course) :
  App.showForm st = true -> App.editingStudent st = None ->
  (forall fs, f = Some fs -> before = None ->
     StudentForm.form_enrolledCourse (StudentForm.formData fs) ∈ App.select_options courses) ->
  forall fs', App.render before st f = Some fs' ->
    StudentForm.form_enrolledCourse (StudentForm.formData fs') ∈ App.select_options courses.
Proof.
  intros Hshow Hed Hf fs'. unfold App.render. rewrite Hshow, Hed.
  destruct f as [fs|].
  - destruct (decide (before = None)) as [Hb|Hb]; intros [= <-].
    + by apply Hf.
    + cbn. apply list_elem_of_here.
  - intros [= <-]. cbn. apply list_elem_of_here.
Qed.

Lemma handleInputChange_course field text fs :
  field <> StudentForm.FEnrolledCourse ->
  StudentForm.form_enrolledCourse
    (StudentForm.formData (StudentForm.handleInputChange field text fs)) =
  StudentForm.form_enrolledCourse (StudentForm.formData fs).
Proof. by destruct field. Qed.

Lemma session_directory_step e s d :
  session_settled s ->
  Directory.step e (Session.directory_of s) = Some d ->
  session_settled (Session.with_directory d s).
Proof.
  intros [Hdir Hform] Hstep. split.
  - apply (directory_step_settled e (Session.directory_of s)); [exact Hdir|].
    rewrite Hstep. by destruct d.
  - cbn [Session.with_directory Session.page App.form App.app App.editingStudent
         App.coursesHook].
    intros fs Hf Hed. specialize (Hform fs Hf Hed).
    assert (Hc : useCourses.courses (App.coursesHook (App.app (Session.page s))) = []).
    { unfold directory_settled, directory, Session.directory_of in Hdir.
      cbn [Directory.hook Directory.pending] in Hdir.
      unfold Session.directory_of in Hstep.
      destruct (App.coursesHook (App.app (Session.page s))) as [cs l err].
      cbn [useCourses.isLoading useCourses.error useCourses.courses] in *.
      destruct l; [by destruct Hdir as (_ & _ & ->)|].
      destruct err as [m|]; [by destruct Hdir as (_ & -> & _)|].
      destruct Hdir as [Hp _]. destruct e; cbn in Hstep; [discriminate|].
      cbn in Hp. rewrite Hp in Hstep. discriminate. }
    rewrite Hc in Hform. apply list_elem_of_singleton in Hform. rewrite Hform.
    apply list_elem_of_here.
Qed.

Lemma click_AddStudent_coursesHook p :
  App.coursesHook (App.app (App.click_AddStudent p)) = App.coursesHook (App.app p).
Proof. unfold App.click_AddStudent. by destruct (App.add_button_enabled _). Qed.

Lemma click_EditStudent_coursesHook student p :
  App.coursesHook (App.app (App.click_EditStudent student p)) = App.coursesHook (App.app p).
Proof. unfold App.click_EditStudent. by destruct (useStudents.isLoading _). Qed.

Lemma change_input_app field text p :
  App.app (App.change_input field text p) = App.app p.
Proof.
  unfold App.change_input. destruct (App.form p); [|done].
  destruct (App.control_enabled _ _ _); [|done].
  destruct field; try done. by destruct (bool_decide _).
Qed.

Lemma change_search_coursesHook text p :
  App.coursesHook (App.app (App.change_search text p)) = App.coursesHook (App.app p).
Proof. unfold App.change_search. by destruct (useStudents.isLoading _). Qed.

Lemma click_Cancel_coursesHook p :
  App.coursesHook (App.app (App.click_Cancel p)) = App.coursesHook (App.app p).
Proof.
  unfold App.click_Cancel. destruct (App.form p) as [fs|]; [|done].
  by destruct (StudentForm.isSubmitting fs).
Qed.

Lemma session_step_settled e s s' :
  session_settled s -> Session.step toLowerCase e s = Some s' -> session_settled s'.
Proof.
  intros Hok Hstep. pose proof Hok as [Hdir Hform].
  destruct e as [|b| | |student|field text|text| |d]; cbn [Session.step] in Hstep.
  - destruct (useStudents.isLoading _); [|discriminate].
    destruct (loadStudents _ _) as [[[hook|]|exn] h']; try discriminate.
    injection Hstep as <-. split; [exact Hdir | exact Hform].
  - destruct (Directory.step _ _) as [ds|] eqn:E; [|discriminate].
    injection Hstep as <-. by eapply session_directory_step.
  - destruct (useStudents.isLoading _); [discriminate|].
    destruct (Directory.step _ _) as [ds|] eqn:E; [|discriminate].
    injection Hstep as <-. by eapply session_directory_step.
  - injection Hstep as <-. split.
    { unfold Session.directory_of. cbn [Session.page Session.pending].
      by rewrite click_AddStudent_coursesHook. }
    cbn [Session.page]. rewrite click_AddStudent_coursesHook.
    unfold App.click_AddStudent.
    destruct (App.add_button_enabled _); [|exact Hform].
    cbn [App.form App.app App.handleAddStudent App.editingStudent App.coursesHook].
    intros fs Hf _. revert fs Hf. apply render_add_form; [done | done |].
    intros fs Hf Hb. by apply Hform.
  - destruct (bool_decide _); [|discriminate]. injection Hstep as <-. split.
    { unfold Session.directory_of. cbn [Session.page Session.pending].
      by rewrite click_EditStudent_coursesHook. }
    cbn [Session.page]. unfold App.click_EditStudent.
    destruct (useStudents.isLoading _); [exact Hform|].
    cbn [App.form App.app App.handleEditStudent App.editingStudent]. discriminate.
  - injection Hstep as <-. split.
    { unfold Session.directory_of. cbn [Session.page Session.pending].
      by rewrite change_input_app. }
    cbn [Session.page]. rewrite change_input_app.
    unfold App.change_input. destruct (App.form (Session.page s)) as [fs|] eqn:Hf;
      [|by rewrite Hf].
    destruct (App.control_enabled _ _ _); [|by rewrite Hf].
    destruct field; cbn [App.form];
      try (intros fs' [= <-] Hed; rewrite handleInputChange_course by done;
           by apply Hform).
    destruct (bool_decide _) eqn:Hin; [|by rewrite Hf].
    apply bool_decide_eq_true in Hin. cbn [App.form].
    intros fs' [= <-] _. exact Hin.
  - injection Hstep as <-. split.
    { unfold Session.directory_of. cbn [Session.page Session.pending].
      by rewrite change_search_coursesHook. }
    cbn [Session.page]. unfold App.change_search.
    by destruct (useStudents.isLoading _).
  - injection Hstep as <-. split.
    { unfold Session.directory_of. cbn [Session.page Session.pending].
      by rewrite click_Cancel_coursesHook. }
    cbn [Session.page]. unfold App.click_Cancel.
    destruct (App.form (Session.page s)) as [fs|] eqn:Hf; [|by rewrite Hf].
    destruct (StudentForm.isSubmitting fs); [by rewrite Hf|].
    cbn [App.form App.app App.handleFormCancel App.render App.showForm]. discriminate.
  - destruct (submit_form_cases d (Session.page s) (Session.host s))
      as [[_ E] | [(fs & Hf & Hs & Hv & E) | (fs & hook & h' & Hf & Hs & Hv & E & _)]];
      rewrite E in Hstep; injection Hstep as <-.
    + split; [exact Hdir | exact Hform].
    + split; [exact Hdir|]. cbn [Session.page App.form App.app].
      intros fs' [= <-] Hed. cbn [StudentForm.formData]. exact (Hform fs Hf Hed).
    + split; [exact Hdir|]. cbn [Session.page App.form]. discriminate.
Qed.

Lemma session_run_settled es s s' :
  session_settled s -> Session.run toLowerCase es s = Some s' -> session_settled s'.
Proof.
  revert s. induction es as [|e es IH]; intros s Hok Hrun; cbn in Hrun.
  - by injection Hrun as <-.
  - destruct (Session.step toLowerCase e s) as [s1|] eqn:E; [|discriminate].
    eapply IH; [|exact Hrun]. by eapply session_step_settled.
Qed.

Lemma session_mounted_settled h : session_settled (Session.mounted h).
Proof. split; [by repeat split | discriminate]. Qed.

Lemma failed_directory_has_no_course s message :
  session_settled s ->
  directory (App.coursesHook (App.app (Session.page s))) = Failed message ->
  useCourses.courses (App.coursesHook (App.app (Session.page s))) = [] /\
  useCourses.error (App.coursesHook (App.app (Session.page s))) = Some message.
Proof.
  intros [Hdir _] Hfailed. unfold directory_settled in Hdir.
  cbn [Session.directory_of Directory.hook Directory.pending] in Hdir.
  rewrite Hfailed in Hdir. destruct Hdir as (_ & Hc & _). split; [exact Hc|].
  unfold directory in Hfailed.
  destruct (useCourses.isLoading _); [discriminate|].
  destruct (useCourses.error _); [|discriminate]. by injection Hfailed as ->.
Qed.

(** C2.  On every page that a session reaches, while the Course Directory is
    in the Failed state no record is added.  The select of the form has no
    course to offer and the button "Add Student" is disabled: a click on it
    changes nothing.  A submission, whatever the form holds, leaves the ids
    of the collection as they are; and the submission of the add form leaves
    the state of the page, with the collection, and the host as they are,
    the form, when it is open and not submitting, keeping its draft and
    showing "Please select a course". *)
Theorem failed_directory_blocks_add (h0 : Host) (es : list Session.Event)
    (s : Session.State) (message : jsstring) :
  Session.run toLowerCase es (Session.mounted h0) = Some s ->
  directory (App.coursesHook (App.app (Session.page s))) = Failed message ->
  App.select_options (useCourses.courses (App.coursesHook (App.app (Session.page s)))) = [[]] /\
  App.click_AddStudent (Session.page s) = Session.page s /\
  forall d h, exists p' h',
    App.submit_form toLowerCase d (Session.page s) h = (Normal p', h') /\
    ids (useStudents.students (App.studentsHook (App.app p'))) =
      ids (useStudents.students (App.studentsHook (App.app (Session.page s)))) /\
    (App.editingStudent (App.app (Session.page s)) = None ->
     App.app p' = App.app (Session.page s) /\ h' = h /\
     forall fs,
       App.form (Session.page s) = Some fs -> StudentForm.isSubmitting fs = false ->
       exists fs',
         App.form p' = Some fs' /\
         StudentForm.formData fs' = StudentForm.formData fs /\
         err_enrolledCourse (StudentForm.errors fs') = Some msg_course_required).
Proof.
  intros Hrun Hfailed.
  pose proof (session_run_settled es _ s (session_mounted_settled h0) Hrun) as Hok.
  destruct (failed_directory_has_no_course s message Hok Hfailed) as [Hc Herr].
  destruct Hok as [_ Hform]. rewrite Hc in Hform.
  split; [by rewrite Hc|]. split.
  { unfold App.click_AddStudent, App.add_button_enabled. rewrite Herr.
    by rewrite andb_false_r. }
  intros d h.
  assert (Hblank : forall fs,
            App.form (Session.page s) = Some fs ->
            App.editingStudent (App.app (Session.page s)) = None ->
            StudentForm.course_error (StudentForm.formData fs) = Some msg_course_required).
  { intros fs Hf Hed. specialize (Hform fs Hf Hed).
    apply list_elem_of_singleton in Hform.
    destruct (course_error_cases (StudentForm.formData fs)) as [[_ E] | [Hne _]]; done. }
  destruct (submit_form_cases d (Session.page s) h)
    as [[Hsub E] | [(fs & Hf & Hs & Hv & E) | (fs & hook & h' & Hf & Hs & Hv & E & Hst)]];
    rewrite E; eexists _, _; (split; [reflexivity|]).
  - split; [done|]. intros _. split; [done|]. split; [done|].
    intros fs Hf Hs. rewrite (Hsub fs Hf) in Hs. discriminate.
  - cbn [App.app]. split; [done|]. intros Hed. split; [done|]. split; [done|].
    intros fs0 Hf0 _. rewrite Hf in Hf0. injection Hf0 as <-.
    eexists. cbn [App.form]. split; [reflexivity|].
    cbn [StudentForm.formData StudentForm.errors]. split; [done|].
    unfold StudentForm.validateForm. cbn [fst err_enrolledCourse]. by apply Hblank.
  - cbn [App.app App.studentsHook]. rewrite Hst.
    destruct (App.editingStudent (App.app (Session.page s))) as [student|] eqn:Hed.
    + split; [apply replace_by_id_ids | discriminate].
    + apply validateForm_verdict in Hv as (_ & _ & Hcourse).
      rewrite (Hblank fs Hf eq_refl) in Hcourse. discriminate.
Qed.
Lemma add_form_course_is_offered h0 es s fs :
  Session.run toLowerCase es (Session.mounted h0) = Some s ->
  App.form (Session.page s) = Some fs ->
  App.editingStudent (App.app (Session.page s)) = None ->
  StudentForm.form_enrolledCourse (StudentForm.formData fs) = [] \/
  (directory (App.coursesHook (App.app (Session.page s))) = Ready api.mockCourses /\
   exists course,
     In course api.mockCourses /\
     StudentForm.form_enrolledCourse (StudentForm.formData fs) = course_name course).
Proof.
  intros Hrun Hf Hed.
  destruct (session_run_settled es _ s (session_mounted_settled h0) Hrun) as [Hdir Hform].
  specialize (Hform fs Hf Hed). unfold App.select_options in Hform.
  apply elem_of_cons in Hform as [E | Hin]; [by left|]. right.
  apply list_elem_of_In, in_map_iff in Hin as (course & Hname & Hin).
  unfold directory_settled in Hdir.
  cbn [Session.directory_of Directory.hook Directory.pending] in Hdir.
  destruct (directory (App.coursesHook (App.app (Session.page s)))) as [|cs|m] eqn:Hd.
  - destruct Hdir as (_ & _ & Hc). rewrite Hc in Hin. destruct Hin.
  - destruct Hdir as [_ ->]. split; [done|]. exists course. split; [|done].
    unfold directory in Hd. destruct (useCourses.isLoading _); [discriminate|].
    destruct (useCourses.error _); [discriminate|]. injection Hd as Hd. by rewrite <- Hd.
  - destruct Hdir as (_ & Hc & _). rewrite Hc in Hin. destruct Hin.
Qed.
End SessionFacts.

Lemma failed_directory_blocks_add_witness :
  Session.run toLowerCaseASCII session_add_failed (Session.mounted host0) =
    Some (Session.mkState
            (App.mkPage
               (App.mkState (useStudents.mkState [] false) failed_directory true None [])
               (Some (open_form
                        (StudentForm.mkFormData (str " Cy Doe ") (str "Cy@Doe.io") [] []))))
            0 (snd (storage.saveStudents [] host0))) /\
  directory failed_directory = Failed (str "Failed to fetch courses from server") /\
  exists p' h',
    App.submit_form toLowerCaseASCII draws0
      (App.mkPage
         (App.mkState (useStudents.mkState [] false) failed_directory true None [])
         (Some (open_form
                  (StudentForm.mkFormData (str " Cy Doe ") (str "Cy@Doe.io") [] []))))
      host0 = (Normal p', h') /\
    useStudents.students (App.studentsHook (App.app p')) = [] /\ h' = host0.
Proof.
  assert (Hrun :
    Session.run toLowerCaseASCII session_add_failed (Session.mounted host0) =
    Some (Session.mkState
            (App.mkPage
               (App.mkState (useStudents.mkState [] false) failed_directory true None [])
               (Some (open_form
                        (StudentForm.mkFormData (str " Cy Doe ") (str "Cy@Doe.io") [] []))))
            0 (snd (storage.saveStudents [] host0)))) by (vm_compute; reflexivity).
  assert (Hdir : directory failed_directory =
                 Failed (str "Failed to fetch courses from server")) by reflexivity.
  split; [exact Hrun|]. split; [exact Hdir|].
  destruct (failed_directory_blocks_add toLowerCaseASCII host0 session_add_failed _
              (str "Failed to fetch courses from server") Hrun Hdir)
    as (_ & _ & Hsubmit).
  destruct (Hsubmit draws0 host0) as (p' & h' & E & _ & Hadd).
  destruct (Hadd eq_refl) as (Happ & Hh & _).
  exists p', h'. split; [exact E|]. split; [|exact Hh].
  change (useStudents.students (App.studentsHook (App.app p')) = []).
  by rewrite Happ.
Defined.

(** No session reaches the page [page_add_failed], built by hand with a
    course in the add form under a failed directory. *)
Lemma page_add_failed_is_not_reached (h0 : Host) (es : list Session.Event)
    (s : Session.State) :
  Session.run toLowerCaseASCII es (Session.mounted h0) = Some s ->
  Session.page s <> page_add_failed.
Proof.
  intros Hrun Hp.
  destruct (add_form_course_is_offered toLowerCaseASCII h0 es s (open_form valid_draft)
              Hrun) as [E | [Hd _]].
  - by rewrite Hp.
  - by rewrite Hp.
  - vm_compute in E. discriminate E.
  - rewrite Hp in Hd. vm_compute in Hd. discriminate Hd.
Qed.

(** With the courses loaded, the same steps and a choice in the select add
    the record. *)
Example session_add_ready_commits :
  exists s,
    Session.run toLowerCaseASCII
      [Session.StudentsLoaded;
       Session.CoursesResolved false;
       Session.ClickAddStudent;
       Session.ChangeInput StudentForm.FName (str " Cy Doe ");
       Session.ChangeInput StudentForm.FEmail (str " Cy@Doe.io ");
       Session.ChangeInput StudentForm.FEnrolledCourse (str "HTML Basics");
       Session.Submit draws0]
      (Session.mounted host0) = Some s /\
    useStudents.students (App.studentsHook (App.app (Session.page s))) =
      [StudentForm.studentData toLowerCaseASCII None valid_draft draws0] /\
    App.form (Session.page s) = None.
Proof. eexists. split; [vm_compute; reflexivity|]. split; reflexivity. Qed.
